(** * Verification of the parallel API tester ([parallel_api_tester.py])

    The development embeds the three parts of the program:
    - the request builder [create_request_params];
    - the dispatcher: the per-request operations [single_api_call] and
      [single_api_call_async], the thread-pool run [run_parallel_sync] and
      the asyncio run [run_parallel_async];
    - the analyzer [analyze_results], the report writer
      [save_detailed_report] and the driver [main].

    Conventions of the embedding.
    - Python numbers are exact rationals ([Q]); a Python [float] is
      idealised as the rational it denotes, and [round(x, n)] rounds that
      rational to [n] decimals, ties to even, as CPython does on the exact
      value of a float. Sums, products and quotients are exact here,
      where binary64 rounds each of them: the mean of the analyzer can
      differ from the source's by the accumulated rounding error (see
      [avg_response_time]). Module [Binary64] holds the floats as they
      are, for the numbers on which this matters.
    - Python strings are byte strings ([string]); [str.lower] acts on the
      ASCII letters.
    - A Python dict with a fixed set of keys is a record; a key that some
      code paths leave out is an [option] field ([None]: key absent).
      The two [defaultdict(int)] histograms are [gmap]s.
    - The network, the clock and the thread scheduler are inputs: a
      function from worker index to what the transport did, time stamps,
      and a schedule that picks which pending task moves next.
    - Console output is a list of events; the layout of formatted lines is
      not modelled, only which line is printed and from which data. *)

From Stdlib Require Import ZArith QArith Qround Qminmax Qabs String Ascii List Lia Lqa.
From Stdlib Require Import Floats Uint63.
From stdpp Require Import gmap strings pretty relations.
Import ListNotations.

Local Open Scope string_scope.
Local Open Scope list_scope.

(** ** Python values used by the program *)

Module Py.

(** The values an ['error'] entry holds: [None] or a string. *)
Inductive value :=
| VNone
| VStr (s : string).

#[global] Instance value_eq_dec : EqDecision value.
Proof. solve_decision. Defined.

Definition value_to_option (v : value) : option string :=
  match v with VNone => None | VStr s => Some s end.

Definition value_of_option (o : option string) : value :=
  match o with None => VNone | Some s => VStr s end.

#[global] Instance value_countable : Countable value.
Proof.
  refine (inj_countable' value_to_option value_of_option _).
  by intros [].
Defined.

(** [str(v)] *)
Definition str (v : value) : string :=
  match v with VNone => "None" | VStr s => s end.

(** [c.lower()] on one ASCII character. *)
Definition lower_ascii (c : ascii) : ascii :=
  let n := nat_of_ascii c in
  if (65 <=? n)%nat && (n <=? 90)%nat then ascii_of_nat (n + 32) else c.

(** [s.lower()] *)
Fixpoint lower (s : string) : string :=
  match s with
  | EmptyString => EmptyString
  | String c s' => String (lower_ascii c) (lower s')
  end.

(** [needle in hay] on strings: [needle] occurs as a substring. *)
Fixpoint contains (needle hay : string) : bool :=
  String.prefix needle hay ||
  match hay with
  | EmptyString => false
  | String _ hay' => contains needle hay'
  end.

(** [l[i]] on a list: a negative index counts from the end, an index out
    of range raises [IndexError] ([None]). *)
Definition index {A} (l : list A) (i : Z) : option A :=
  let n := Z.of_nat (length l) in
  if (0 <=? i)%Z && (i <? n)%Z then l !! Z.to_nat i
  else if (- n <=? i)%Z && (i <? 0)%Z then l !! Z.to_nat (n + i)
  else None.

(** [range(n)] *)
Definition range (n : Z) : list Z :=
  Z.of_nat <$> seq 0 (Z.to_nat n).

(** Round a rational to the nearest integer, ties to the even one. *)
Definition round_half_even (q : Q) : Z :=
  let f := Qfloor q in
  match (q - inject_Z f ?= 1 # 2)%Q with
  | Lt => f
  | Gt => (f + 1)%Z
  | Eq => if Z.even f then f else (f + 1)%Z
  end.

(** [round(x, ndigits)] for [ndigits >= 0]. *)
Definition round (x : Q) (ndigits : nat) : Q :=
  let scale := (10 ^ Z.of_nat ndigits)%Z in
  Qmake (round_half_even (x * inject_Z scale)) (Z.to_pos scale).

(** [sum(l)]: starts from 0 and adds from the left. *)
Definition sum (l : list Q) : Q := fold_left Qplus l 0%Q.

(** [min(x :: l)] and [max(x :: l)]; on equal elements the first one is
    kept, as in Python. The source calls them on non-empty lists only. *)
Definition min (x : Q) (l : list Q) : Q := fold_left Qmin l x.
Definition max (x : Q) (l : list Q) : Q := fold_left Qmax l x.

(** [len(l)] as a number. *)
Definition len {A} (l : list A) : Q := inject_Z (Z.of_nat (length l)).

(** [d[k] += 1] on a [defaultdict(int)]. *)
Definition incr `{Countable K} (k : K) (d : gmap K nat) : gmap K nat :=
  <[k := S (default 0%nat (d !! k))]> d.

(** [any(p(r) for r in l)] *)
Definition any {A} (p : A → bool) (l : list A) : bool := existsb p l.

End Py.

(** ** Python floats as they are

    Binary64 numbers with CPython's [round]: the exact value of the float
    is rounded to [ndigits] decimals, ties to even, and the result is the
    float nearest to that decimal. Used to check the idealisation of
    floats as rationals on the numbers the statements below rest on. *)

Module Binary64.

(** The rational a finite float denotes. *)
Definition exact (x : float) : option Q :=
  match Prim2SF x with
  | S754_zero _ => Some 0%Q
  | S754_finite s m e =>
      Some ((if s then -1 else 1) * inject_Z (Zpos m) * Qpower 2 e)%Q
  | _ => None
  end.

(** The float of an integer below [2^53] in absolute value. *)
Definition of_Z (z : Z) : float :=
  match z with
  | Z0 => 0%float
  | Zpos _ => PrimFloat.of_uint63 (Uint63.of_Z z)
  | Zneg p => (- PrimFloat.of_uint63 (Uint63.of_Z (Zpos p)))%float
  end.

(** [round(x, ndigits)] on a float; infinities and NaN are returned as
    they are. *)
Definition round (x : float) (ndigits : nat) : float :=
  match exact x with
  | Some q =>
      let scale := (10 ^ Z.of_nat ndigits)%Z in
      (of_Z (Py.round_half_even (q * inject_Z scale)) / of_Z scale)%float
  | None => x
  end.

(** [sum(l) / len(l)] on floats. *)
Definition mean (l : list float) : float :=
  (fold_left PrimFloat.add l 0 / of_Z (Z.of_nat (length l)))%float.

End Binary64.

(** ** Python floats up to rounding

    The standard model of binary64 arithmetic where nothing overflows or
    underflows: an operation returns its exact result rounded to a float,
    with a relative error of at most [2^-53]. The analyzer's two float
    computations are written over such a rounding [fl]. *)

Module Rounded.

(** The unit roundoff of binary64, [2^-53]. *)
Definition unit_roundoff : Q := 1 # 9007199254740992.

(** [fl] rounds every number with a relative error of at most the unit
    roundoff. *)
Definition rounding (fl : Q → Q) : Prop :=
  ∀ x, (Qabs (fl x - x) <= unit_roundoff * Qabs x)%Q.

(** [sum(l)] on floats: additions from the left, each rounded. (From
    CPython 3.12 on [sum] compensates the additions; its error is
    smaller.) *)
Definition sum (fl : Q → Q) (l : list Q) : Q :=
  fold_left (λ a x, fl (a + x)%Q) l 0%Q.

(** [sum(l) / len(l)] on floats. *)
Definition mean (fl : Q → Q) (l : list Q) : Q :=
  fl (sum fl l / Py.len l)%Q.

(** [s / n * 100] on the integers [s] and [n]. *)
Definition rate (fl : Q → Q) (s n : Q) : Q :=
  fl (fl (s / n) * 100)%Q.

End Rounded.

(** ** Data model *)

(** An outcome record: the dict built by [single_api_call] and
    [single_api_call_async]. The records of the [except] branch have no
    ['results_count'] and no ['api_status'] key; ['error'] is read with
    [.get], so it is optional as well. *)
Record outcome := Outcome {
  worker_id : Z;
  query : string;
  timestamp : string;
  response_time_ms : Q;
  status_code : Z;
  success : bool;
  results_count : option nat;
  api_status : option string;
  error : option Py.value
}.

(** The assignments [result[k] = v] of the source. *)
Definition set_api_status (v : string) (r : outcome) : outcome :=
  Outcome (worker_id r) (query r) (timestamp r) (response_time_ms r)
          (status_code r) (success r) (results_count r) (Some v) (error r).

Definition set_success (v : bool) (r : outcome) : outcome :=
  Outcome (worker_id r) (query r) (timestamp r) (response_time_ms r)
          (status_code r) v (results_count r) (api_status r) (error r).

Definition set_results_count (v : nat) (r : outcome) : outcome :=
  Outcome (worker_id r) (query r) (timestamp r) (response_time_ms r)
          (status_code r) (success r) (Some v) (api_status r) (error r).

Definition set_error (v : Py.value) (r : outcome) : outcome :=
  Outcome (worker_id r) (query r) (timestamp r) (response_time_ms r)
          (status_code r) (success r) (results_count r) (api_status r) (Some v).

(** The parameter dict of a request. *)
Record params := Params {
  p_query : string;
  p_key : string;
  p_location : string;
  p_radius : Z;
  p_language : string
}.

(** The report dict of [analyze_results], flattened. *)
Record analysis := Analysis {
  a_timestamp : string;
  workers : Z;
  total_requests : nat;
  successful_requests : nat;
  failed_requests : nat;
  success_rate_percent : Q;
  avg_response_time_ms : Q;
  min_response_time_ms : Q;
  max_response_time_ms : Q;
  error_analysis : gmap Py.value nat;
  api_status_distribution : gmap string nat;
  cost_successful_requests : nat;
  estimated_cost_usd : Q;
  cost_per_request_usd : Q;
  rate_limiting_detected : bool;
  api_restrictions_detected : bool;
  quota_exceeded : bool;
  full_functionality : bool
}.

(** What the program prints. Fixed text is kept; a formatted line is
    identified by the data it is formatted from. *)
Inductive event :=
| Say (text : string)
| WorkerLine (r : outcome)
| GatherError (e : string)
| TimingLines
| Rendering (a : analysis)
| Banner (n : Z) (async : bool)
| StartLines (n : Z) (async : bool)
| PartialCount (n : nat)
| SavedNotice (filename : string)
| UnexpectedError (e : string).

(** The JSON document written by [save_detailed_report]. *)
Record report_file := ReportFile {
  filename : string;
  analysis_summary : analysis;
  detailed_results : list outcome
}.

(** The tester object: the credential and the worker count are fixed at
    construction. The query list and the endpoint are the constants of
    [__init__]; the credential literal is a constructor argument here. *)
Record tester := Tester {
  api_key : string;
  num_workers : Z
}.

Definition base_url : string :=
  "https://maps.googleapis.com/maps/api/place/textsearch/json".

Definition test_queries : list string :=
  [ "copec"; "restaurant santiago"; "pharmacy chile"; "bank santiago";
    "hospital chile"; "shopping mall"; "gas station"; "coffee shop";
    "supermarket"; "hotel santiago" ].

(** The mutable part of a run: [self.results], the console and the files
    written. *)
Record world := World {
  results : list outcome;
  console : list event;
  files : list report_file
}.

Definition init_world : world := World [] [] [].

Definition append_result (r : outcome) (w : world) : world :=
  World (results w ++ [r]) (console w) (files w).

Definition print (e : event) (w : world) : world :=
  World (results w) (console w ++ [e]) (files w).

Definition write_file (f : report_file) (w : world) : world :=
  World (results w) (console w) (files w ++ [f]).

(** Result of a call that may raise: the value, or the description
    [str(e)] of the exception. *)
Inductive res (A : Type) :=
| Ok (a : A)
| Raise (e : string).
Arguments Ok {A} a.
Arguments Raise {A} e.

(** ** The environment of a request *)

(** What [response.json()] and the reading of the parsed body do. *)
Inductive body :=
| NotJson
    (* [json.JSONDecodeError] *)
| Json (status : option string) (n_results : option nat)
       (error_message : option Py.value)
    (* an object; [n_results] is the length of its ['results'] list *)
| BodyRaises (e : string).
    (* any other exception raised while the body is read *)

(** What the transport did with one request. [elapsed] is
    [end_time - start_time], in seconds. *)
Inductive reply :=
| TransportRaises (e : string)
| Response (elapsed : Q) (code : Z) (b : body).

(** The environment of a run: the transport and the record time stamp
    per worker index, the time stamp of the analysis and the one in the
    name of the report file. *)
Record env := Env {
  transport : Z → reply;
  isoformat_now : Z → string;
  analysis_time : string;
  report_stamp : string
}.

(** ** Request builder *)

(** [create_request_params]; [Raise] would be the [IndexError] of the
    list access. *)
Definition create_request_params (self : tester) (worker_id : Z) : res params :=
  match Py.index test_queries (worker_id mod Z.of_nat (length test_queries)) with
  | Some query =>
      Ok (Params query (api_key self) "-33.4489,-70.6693" 50000 "es")
  | None => Raise "list index out of range"
  end.

(** ** Per-request operation *)

(** The body of the [try] block, shared text of lines 71-105 and 175-209
    up to the name of the status attribute. *)
Definition request_outcome (p : params) (now : string) (worker_id : Z)
    (elapsed : Q) (code : Z) (b : body) : res outcome :=
  let result :=
    Outcome worker_id (p_query p) now (Py.round (elapsed * 1000) 2) code
            false (Some 0%nat) (Some "UNKNOWN") (Some Py.VNone) in
  if (code =? 200)%Z then
    match b with
    | NotJson => Ok (set_error (Py.VStr "Invalid JSON response") result)
    | BodyRaises e => Raise e
    | Json status n_results error_message =>
        let api_status := default "UNKNOWN" status in
        let result := set_api_status api_status result in
        if String.eqb api_status "OK" then
          Ok (set_results_count (default 0%nat n_results)
                (set_success true result))
        else if String.eqb api_status "REQUEST_DENIED"
                || String.eqb api_status "INVALID_REQUEST" then
          Ok (set_error
                (default (Py.VStr "API request denied") error_message) result)
        else if String.eqb api_status "OVER_QUERY_LIMIT" then
          Ok (set_error (Py.VStr "Rate limit exceeded") result)
        else Ok result
    end
  else if (code =? 403)%Z then
    Ok (set_error (Py.VStr "Forbidden (403)") result)
  else if (code =? 429)%Z then
    Ok (set_error (Py.VStr "Too Many Requests (429)") result)
  else
    Ok (set_error (Py.VStr ("HTTP " ++ pretty code)%string) result).

(** The record of the [except Exception as e] branch. *)
Definition error_result (p : params) (now : string) (worker_id : Z)
    (e : string) : outcome :=
  Outcome worker_id (p_query p) now 0 0 false None None (Some (Py.VStr e)).

(** [single_api_call]: builds the record and appends it to
    [self.results] under the lock. *)
Definition single_api_call (self : tester) (now : string) (rp : reply)
    (worker_id : Z) (w : world) : res outcome * world :=
  match create_request_params self worker_id with
  | Raise e => (Raise e, w)
  | Ok p =>
      let attempt :=
        match rp with
        | TransportRaises e => Raise e
        | Response elapsed code b => request_outcome p now worker_id elapsed code b
        end in
      match attempt with
      | Ok result => (Ok result, append_result result w)
      | Raise e =>
          let error_result := error_result p now worker_id e in
          (Ok error_result, append_result error_result w)
      end
  end.

(** [single_api_call_async]: returns the record, appends nothing. *)
Definition single_api_call_async (self : tester) (now : string) (rp : reply)
    (worker_id : Z) : res outcome :=
  match create_request_params self worker_id with
  | Raise e => Raise e
  | Ok p =>
      let attempt :=
        match rp with
        | TransportRaises e => Raise e
        | Response elapsed code b => request_outcome p now worker_id elapsed code b
        end in
      match attempt with
      | Ok result => Ok result
      | Raise e => Ok (error_result p now worker_id e)
      end
  end.

(** ** Analyzer *)

Definition error_type (r : outcome) : Py.value :=
  default (Py.VStr "Unknown error") (error r).

Definition status_label (r : outcome) : string :=
  default "UNKNOWN" (api_status r).

(** The two loops filling a [defaultdict(int)]. *)
Definition error_counts (failed : list outcome) : gmap Py.value nat :=
  fold_left (λ d r, Py.incr (error_type r) d) failed ∅.

Definition api_status_counts (rs : list outcome) : gmap string nat :=
  fold_left (λ d r, Py.incr (status_label r) d) rs ∅.

(** The generator expressions of the security assessment. *)
Definition mentions_rate_limit (r : outcome) : bool :=
  Py.contains "rate limit" (Py.lower (Py.str (default (Py.VStr "") (error r)))).

Definition mentions_403 (r : outcome) : bool :=
  Py.contains "403" (Py.str (default (Py.VStr "") (error r))).

Definition mentions_over_query_limit (r : outcome) : bool :=
  Py.contains "OVER_QUERY_LIMIT" (default "" (api_status r)).

(** [success_rate], before rounding. *)
Definition success_rate (rs : list outcome) : Q :=
  (Py.len (filter (λ r, success r = true) rs) / Py.len rs * 100)%Q.

(** [avg_response_time], [min_response_time], [max_response_time], before
    rounding.

    [avg_response_time] is the exact mean. The source computes
    [sum(response_times) / len(response_times)] in binary64, each addition
    and the division rounded, so its value is this mean plus an error of
    a few units in the last binary place: for three latencies of 50.05 it
    is 50.04999999999999, below the minimum, and for 0.01 and 0.02 it lies
    just below the tie 0.015, so that the source reports 0.01 where the
    exact mean rounds to 0.02 ([binary64_mean_error]). Nothing is
    therefore stated on the unrounded mean, and the bounds on the reported
    average are proved as well for [round (avg_response_time times + d, 2)]
    with every error [d] below 0.005 in absolute value, and for the mean
    [Rounded.mean] of the rounded latencies. *)
Definition avg_response_time (response_times : list Q) : Q :=
  match response_times with
  | [] => 0
  | _ => Py.sum response_times / Py.len response_times
  end%Q.

Definition min_response_time (response_times : list Q) : Q :=
  match response_times with
  | [] => 0%Q
  | x :: l => Py.min x l
  end.

Definition max_response_time (response_times : list Q) : Q :=
  match response_times with
  | [] => 0%Q
  | x :: l => Py.max x l
  end.

(** The dict [analysis] built from a non-empty [self.results]. *)
Definition build_analysis (self : tester) (now : string) (rs : list outcome)
    : analysis :=
  let successful := filter (λ r, success r = true) rs in
  let failed := filter (λ r, success r = false) rs in
  let total_requests := length rs in
  let success_rate := success_rate rs in
  let response_times := response_time_ms <$> successful in
  let total_successful_requests := length successful in
  let estimated_cost := (Py.len successful * 0.017)%Q in
  Analysis now (num_workers self) total_requests
    (length successful) (length failed) (Py.round success_rate 2)
    (Py.round (avg_response_time response_times) 2)
    (min_response_time response_times)
    (max_response_time response_times)
    (error_counts failed)
    (api_status_counts rs)
    total_successful_requests (Py.round estimated_cost 4) 0.017%Q
    (Py.any mentions_rate_limit failed)
    (Py.any mentions_403 failed)
    (Py.any mentions_over_query_limit rs)
    (negb (Qle_bool success_rate 90)).

(** [print_analysis]: every line it prints is computed from [a]. *)
Definition print_analysis (a : analysis) (w : world) : world :=
  print (Rendering a) w.

Definition no_results_message : string := "❌ No hay resultados para analizar".

(** [analyze_results] *)
Definition analyze_results (self : tester) (now : string) (w : world)
    : option analysis * world :=
  match results w with
  | [] => (None, print (Say no_results_message) w)
  | _ =>
      let analysis := build_analysis self now (results w) in
      (Some analysis, print_analysis analysis w)
  end.

(** [save_detailed_report] *)
Definition save_detailed_report (self : tester) (stamp : string)
    (a : analysis) (w : world) : string * world :=
  let filename :=
    ("parallel_api_test_report_" ++ pretty (num_workers self)
       ++ "workers_" ++ stamp ++ ".json")%string in
  let w := write_file (ReportFile filename a (results w)) w in
  (filename, print (SavedNotice filename) w).

(** ** Dispatcher: thread pool *)

(** A task submitted to the executor: not yet run, or run with its future
    set and its done-callback still to be called. *)
Inductive task :=
| Queued (worker_id : Z)
| Finished (r : res outcome).

Record pool := Pool {
  pending : list task;
  pool_world : world
}.

(** [worker_callback]: [future.result()] raises again what the task
    raised, and then nothing is printed. *)
Definition worker_callback (r : res outcome) (w : world) : world :=
  match r with
  | Ok result => print (WorkerLine result) w
  | Raise _ => w
  end.

(** One move of one task: a queued task runs [single_api_call] (the
    append is atomic, under [self.lock]); a finished task gets its
    callback called and leaves the pool. *)
Definition advance (self : tester) (e : env) (t : task) (w : world)
    : option task * world :=
  match t with
  | Queued worker_id =>
      let '(r, w') :=
        single_api_call self (isoformat_now e worker_id)
          (transport e worker_id) worker_id w in
      (Some (Finished r), w')
  | Finished r => (None, worker_callback r w)
  end.

(** Any pending task may move next. *)
Inductive pool_step (self : tester) (e : env) : pool → pool → Prop :=
| pool_step_at pre t post w :
    pool_step self e
      (Pool (pre ++ t :: post) w)
      (Pool (pre ++ option_list (advance self e t w).1 ++ post)
            (advance self e t w).2).

(** The same move as a function: the task at position [i] (modulo the
    number of pending tasks) moves. *)
Definition pool_next (self : tester) (e : env) (i : nat) (p : pool) : pool :=
  let k := (i mod length (pending p))%nat in
  match pending p !! k with
  | None => p
  | Some t =>
      let '(t', w') := advance self e t (pool_world p) in
      Pool (take k (pending p) ++ option_list t' ++ drop (S k) (pending p)) w'
  end.

(** The pool runs under a schedule until no task is left, for at most
    [fuel] moves. *)
Fixpoint pool_run (self : tester) (e : env) (sched : nat → nat)
    (fuel : nat) (p : pool) : pool :=
  match fuel with
  | O => p
  | S fuel' =>
      match pending p with
      | [] => p
      | _ => pool_run self e (λ n, sched (S n)) fuel' (pool_next self e (sched O) p)
      end
  end.

(** The tasks submitted by the loop [for i in range(self.num_workers)]. *)
Definition submitted (self : tester) : list task :=
  (λ i, Queued (i + 1)) <$> Py.range (num_workers self).

(** [run_parallel_sync]. [ThreadPoolExecutor] raises [ValueError] when
    [max_workers <= 0]. Each task moves twice, so [2 * num_workers] moves
    settle the pool. *)
Definition run_parallel_sync (self : tester) (e : env) (sched : nat → nat)
    (w : world) : res (option analysis) * world :=
  let w := print (StartLines (num_workers self) false) w in
  if (num_workers self <=? 0)%Z then
    (Raise "max_workers must be greater than 0", w)
  else
    let p := pool_run self e sched (2 * Z.to_nat (num_workers self))
               (Pool (submitted self) w) in
    let w := print TimingLines (pool_world p) in
    let '(a, w) := analyze_results self (analysis_time e) w in
    (Ok a, w).

(** ** Dispatcher: asyncio *)

(** The coroutines created by the loop, with what [asyncio.gather(...,
    return_exceptions=True)] returns for them, in task order. *)
Definition gather (self : tester) (e : env) : list (res outcome) :=
  (λ i, single_api_call_async self (isoformat_now e (i + 1))
          (transport e (i + 1)) (i + 1))
  <$> Py.range (num_workers self).

(** The loop [for result in results] over the gathered results. *)
Definition process_result (w : world) (result : res outcome) : world :=
  match result with
  | Raise e => print (GatherError e) w
  | Ok r => append_result r (print (WorkerLine r) w)
  end.

(** [run_parallel_async] *)
Definition run_parallel_async (self : tester) (e : env) (w : world)
    : res (option analysis) * world :=
  let w := print (StartLines (num_workers self) true) w in
  let w := fold_left process_result (gather self e) w in
  let w := print TimingLines w in
  let '(a, w) := analyze_results self (analysis_time e) w in
  (Ok a, w).

(** ** Driver *)

Record args := Args {
  arg_workers : Z;
  arg_async_mode : bool
}.

Definition interrupted_message : string :=
  "⚠️ Prueba interrumpida por el usuario".

(** The [except KeyboardInterrupt] clause of [main]; the result is the
    exit status. *)
Definition on_keyboard_interrupt (w : world) : world * Z :=
  let w := print (Say interrupted_message) w in
  let w :=
    match results w with
    | [] => w
    | _ => print (PartialCount (length (results w))) w
    end in
  (w, 0%Z).

(** The [except Exception as e] clause of [main]. *)
Definition on_exception (e : string) (w : world) : world * Z :=
  (print (UnexpectedError e) w, 1%Z).

(** [main]: the final world and the exit status. *)
Definition main (key : string) (a : args) (e : env) (sched : nat → nat)
    : world * Z :=
  let w := print (Banner (arg_workers a) (arg_async_mode a)) init_world in
  let tester := Tester key (arg_workers a) in
  let '(r, w) :=
    if arg_async_mode a then run_parallel_async tester e w
    else run_parallel_sync tester e sched w in
  match r with
  | Raise exn => on_exception exn w
  | Ok None => (w, 0%Z)
  | Ok (Some analysis) =>
      ((save_detailed_report tester (report_stamp e) analysis w).2, 0%Z)
  end.

(** [main] when [KeyboardInterrupt] arrives during dispatch.

    Thread mode: the interrupt is raised in the main thread, inside the
    [with ThreadPoolExecutor] block, when [k] tasks have been submitted
    ([k = 0]: before the first [submit]; [k >= num_workers]: while
    [as_completed] waits). Leaving the block calls
    [shutdown(wait=True)], which waits for every submitted task, so the
    [except KeyboardInterrupt] clause runs on the settled pool of these
    [k] tasks; the tasks not yet submitted never run.

    asyncio mode: the records are appended by the loop that follows
    [gather], so the clause runs when [k] of the gathered results have
    been processed ([k = 0] while [gather] is awaited).

    An interrupt that falls between [submit] and [add_done_callback], or
    between the [print] and the [append] of the asyncio loop, changes the
    status lines on the console only and is not told apart. *)
Definition main_interrupted (key : string) (a : args) (e : env)
    (sched : nat → nat) (k : nat) : world * Z :=
  let w := print (Banner (arg_workers a) (arg_async_mode a)) init_world in
  let tester := Tester key (arg_workers a) in
  let w :=
    if arg_async_mode a then
      fold_left process_result (take k (gather tester e))
        (print (StartLines (num_workers tester) true) w)
    else
      pool_world (pool_run tester e sched (2 * k)
        (Pool (take k (submitted tester))
              (print (StartLines (num_workers tester) false) w))) in
  on_keyboard_interrupt w.

(** ** Measures on the pool, used to state that it settles *)

(** Moves a task still has to make. *)
Definition moves_left (t : task) : nat :=
  match t with
  | Queued _ => 2
  | Finished _ => 1
  end.

Definition work (ts : list task) : nat := sum_list_with moves_left ts.

(** What the queued tasks will return: the asyncio coroutine of the same
    worker returns the same thing. *)
Definition owed (self : tester) (e : env) (ts : list task) : list (res outcome) :=
  omap (λ t, match t with
             | Queued i =>
                 Some (single_api_call_async self (isoformat_now e i)
                         (transport e i) i)
             | Finished _ => None
             end) ts.

(** ** Predicates used in the statements *)

(** A number with at most [n] decimals. *)
Definition decimals (n : nat) (q : Q) : Prop :=
  ∃ k : Z, (q == inject_Z k / inject_Z (10 ^ Z.of_nat n))%Q.

(** [needle in hay], as a proposition. *)
Definition occurs_in (needle hay : string) : Prop :=
  ∃ pre post, hay = (pre ++ needle ++ post)%string.

(** The report without its time stamp: the aggregate numbers. *)
Definition aggregate_numbers (a : analysis) : analysis :=
  Analysis "" (workers a) (total_requests a) (successful_requests a)
    (failed_requests a) (success_rate_percent a) (avg_response_time_ms a)
    (min_response_time_ms a) (max_response_time_ms a) (error_analysis a)
    (api_status_distribution a) (cost_successful_requests a)
    (estimated_cost_usd a) (cost_per_request_usd a)
    (rate_limiting_detected a) (api_restrictions_detected a)
    (quota_exceeded a) (full_functionality a).

(** Lines printed while requests are dispatched. *)
Definition dispatch_line (ev : event) : Prop :=
  match ev with
  | Banner _ _ | StartLines _ _ | WorkerLine _ | GatherError _ => True
  | _ => False
  end.

(** The rendering of an aggregate report, and the signal of
    [analyze_results] on an empty collection. *)
Definition is_report (ev : event) : bool :=
  match ev with Rendering _ => true | _ => false end.

Definition is_no_results_signal (ev : event) : bool :=
  match ev with Say text => String.eqb text no_results_message | _ => false end.

(** An outcome record as the program creates it: what the per-request
    operation returns for some worker, time stamp and reply of the
    transport ([single_api_call] returns and appends the same record, see
    [advance_queued]). *)
Definition outcome_record (r : outcome) : Prop :=
  ∃ self now rp i, single_api_call_async self now rp i = Ok r.

(** ** Sample inputs *)

(** The synthetic collection of the specification: what is fixed of each
    record is whether it succeeded, with which latency, or failed, with
    which error. *)
Inductive synthetic :=
| Succeeds (latency : Q)
| Fails (err : string).

Definition fits (r : outcome) (s : synthetic) : Prop :=
  match s with
  | Succeeds latency => success r = true ∧ response_time_ms r = latency
  | Fails err => success r = false ∧ error r = Some (Py.VStr err)
  end.

Definition synthetic_outcomes : list synthetic :=
  [ Succeeds 100; Succeeds 120; Succeeds 90; Succeeds 110; Succeeds 130;
    Succeeds 95; Succeeds 105; Succeeds 115;
    Fails "Too Many Requests (429)"; Fails "Forbidden (403)" ].

(** One collection that fits it. *)
Definition succeeded (i : Z) (latency : Q) : outcome :=
  Outcome i "copec" "2025-06-01T12:00:00" latency 200 true
          (Some 20%nat) (Some "OK") (Some Py.VNone).

Definition failed_with (i code : Z) (err : string) : outcome :=
  Outcome i "copec" "2025-06-01T12:00:00" 57.5 code false
          (Some 0%nat) (Some "UNKNOWN") (Some (Py.VStr err)).

Definition synthetic_results : list outcome :=
  [ succeeded 1 100; succeeded 2 120; succeeded 3 90; succeeded 4 110;
    succeeded 5 130; succeeded 6 95; succeeded 7 105; succeeded 8 115;
    failed_with 9 429 "Too Many Requests (429)";
    failed_with 10 403 "Forbidden (403)" ].

(** The records of worker 1 after an OK response received in 123.45 ms
    and of worker 2 after a time-out. *)
Definition ok_record : outcome :=
  Outcome 1 "restaurant santiago" "2025-06-01T12:00:00" 123.45 200 true
          (Some 20%nat) (Some "OK") (Some Py.VNone).

Definition timeout_record : outcome :=
  Outcome 2 "pharmacy chile" "2025-06-01T12:00:00" 0 0 false None None
          (Some (Py.VStr "timed out")).

(** A successful record whose latency has four decimals. *)
Definition off_grid_record : outcome :=
  Outcome 1 "restaurant santiago" "2025-06-01T12:00:00" 0.3125 200 true
          (Some 20%nat) (Some "OK") (Some Py.VNone).

(** A record whose status label contains the quota label without being
    it. *)
Definition quota_like_record : outcome :=
  Outcome 1 "restaurant santiago" "2025-06-01T12:00:00" 0.3 200 false
          (Some 0%nat) (Some "OVER_QUERY_LIMIT_DAILY") (Some Py.VNone).

(** An environment: the request of worker 2 times out, the others get a
    200 response with the label ZERO_RESULTS after 123.45 ms. *)
Definition sample_env : env :=
  Env (λ i, if (i =? 2)%Z then TransportRaises "timed out"
            else Response 0.12345 200
                   (Json (Some "ZERO_RESULTS") (Some 0%nat) None))
      (λ _, "2025-06-01T12:00:00") "2025-06-01T12:00:05" "20250601_120005".

(** A schedule: at move [n] the task at position [n] (modulo the number
    of pending tasks) moves. *)
Definition round_robin (n : nat) : nat := n.

(** The sum of the counts of a histogram. *)
Definition histogram_total `{Countable K} (m : gmap K nat) : nat :=
  map_fold (λ _ n acc, n + acc)%nat 0%nat m.

(** The records of the status lines on the console, in order. *)
Definition worker_lines (c : list event) : list outcome :=
  omap (λ ev, match ev with WorkerLine r => Some r | _ => None end) c.

(** The records of the tasks that have run and whose callback has not. *)
Definition returned (ts : list task) : list outcome :=
  omap (λ t, match t with Finished (Ok r) => Some r | _ => None end) ts.

(** The record of a 429 response received by worker 1 after 250 ms. *)
Definition too_many_record : outcome :=
  Outcome 1 "restaurant santiago" "2025-06-01T12:00:00" 250.00 429 false
          (Some 0%nat) (Some "UNKNOWN")
          (Some (Py.VStr "Too Many Requests (429)")).

(** * Properties *)

(** ** Request builder *)

Lemma test_queries_length : length test_queries = 10%nat.
Proof. reflexivity. Qed.

Lemma query_of_worker (i : Z) :
  is_Some (test_queries !! Z.to_nat (i mod 10)).
Proof.
  apply lookup_lt_is_Some. rewrite test_queries_length.
  pose proof (Z.mod_pos_bound i 10). lia.
Qed.

Lemma create_request_params_ok (self : tester) (i : Z) :
  ∃ q, test_queries !! Z.to_nat (i mod 10) = Some q ∧
       create_request_params self i
       = Ok (Params q (api_key self) "-33.4489,-70.6693" 50000 "es").
Proof.
  destruct (query_of_worker i) as [q Hq]. exists q. split; [done|].
  unfold create_request_params, Py.index. rewrite test_queries_length.
  change (Z.of_nat 10) with 10%Z.
  pose proof (Z.mod_pos_bound i 10 eq_refl) as [Hlo Hhi].
  apply Z.leb_le in Hlo. apply Z.ltb_lt in Hhi.
  rewrite Hlo, Hhi. simpl. by rewrite Hq.
Qed.

(** ** Per-request operation *)

(** A record built in the [try] block carries the request's identity, the
    transport status and a latency with two decimals. *)
Lemma request_outcome_fields p now wid elapsed code b r :
  request_outcome p now wid elapsed code b = Ok r →
  worker_id r = wid ∧ query r = p_query p ∧ timestamp r = now ∧
  status_code r = code ∧ response_time_ms r = Py.round (elapsed * 1000) 2.
Proof.
  unfold request_outcome. intros H.
  repeat case_match; simplify_eq; done.
Qed.

(** Whatever the transport does, the thread version appends exactly the
    record it returns, and the asyncio version returns the same record. *)
Lemma single_api_call_total self now rp wid w :
  ∃ p r, create_request_params self wid = Ok p ∧
         single_api_call self now rp wid w = (Ok r, append_result r w) ∧
         single_api_call_async self now rp wid = Ok r ∧
         worker_id r = wid ∧ query r = p_query p.
Proof.
  unfold single_api_call, single_api_call_async.
  destruct (create_request_params_ok self wid) as (q & _ & ->).
  destruct rp as [e | elapsed code b].
  - do 2 eexists. repeat split.
  - destruct (request_outcome _ now wid elapsed code b) as [r|e] eqn:E.
    + eexists _, r. apply request_outcome_fields in E as (? & ? & _).
      repeat split; done.
    + do 2 eexists. repeat split.
Qed.

(** The record of a request whose [try] block raised. *)
Lemma single_api_call_raised self now rp wid w e :
  rp = TransportRaises e ∨ (∃ elapsed, rp = Response elapsed 200 (BodyRaises e)) →
  ∃ q, test_queries !! Z.to_nat (wid mod 10) = Some q ∧
    let r := Outcome wid q now 0 0 false None None (Some (Py.VStr e)) in
    single_api_call self now rp wid w = (Ok r, append_result r w) ∧
    single_api_call_async self now rp wid = Ok r.
Proof.
  intros Hrp. unfold single_api_call, single_api_call_async.
  destruct (create_request_params_ok self wid) as (q & Hq & ->).
  exists q. split; [done|].
  destruct Hrp as [-> | [elapsed ->]]; done.
Qed.

(** C4. Query selection is a total function of the worker index alone:
    worker [i] gets [test_queries[i mod len(test_queries)]] (the indexing
    convention of the implementation) with the credential, the anchor
    coordinates, the radius and the language; the builder never raises,
    and under both strategies the record of worker [i] carries that query,
    whatever the transport does. *)
Theorem query_selection_deterministic (self : tester) (i : Z) :
  ∃ q,
    test_queries !! Z.to_nat (i mod Z.of_nat (length test_queries)) = Some q ∧
    create_request_params self i
    = Ok (Params q (api_key self) "-33.4489,-70.6693" 50000 "es") ∧
    ∀ now rp w, ∃ r,
      single_api_call self now rp i w = (Ok r, append_result r w) ∧
      single_api_call_async self now rp i = Ok r ∧
      query r = q.
Proof.
  destruct (create_request_params_ok self i) as (q & Hq & Hp).
  exists q. repeat split; [done..|].
  intros now rp w.
  destruct (single_api_call_total self now rp i w) as (p & r & Hp' & ? & ? & _ & Hr).
  exists r. repeat split; [done..|].
  rewrite Hp in Hp'. injection Hp' as <-. exact Hr.
Qed.

(** C3. A request whose transport raises (time-out, connection error or
    any other exception), or whose body raises while it is read, yields a
    record with status code 0, [success = false], latency 0 and the
    description of the exception as error; the thread version appends it
    and returns it, the asyncio version returns it, and neither raises,
    whatever the transport does. *)
Theorem transport_failure_recorded (self : tester) (now e : string)
    (wid : Z) (w : world) :
  (∃ r,
     status_code r = 0%Z ∧ success r = false ∧ response_time_ms r = 0%Q ∧
     error r = Some (Py.VStr e) ∧ worker_id r = wid ∧
     single_api_call self now (TransportRaises e) wid w
     = (Ok r, append_result r w) ∧
     single_api_call_async self now (TransportRaises e) wid = Ok r ∧
     ∀ elapsed,
       single_api_call self now (Response elapsed 200 (BodyRaises e)) wid w
       = (Ok r, append_result r w) ∧
       single_api_call_async self now (Response elapsed 200 (BodyRaises e)) wid
       = Ok r) ∧
  ∀ rp, ∃ r,
    single_api_call self now rp wid w = (Ok r, append_result r w) ∧
    single_api_call_async self now rp wid = Ok r.
Proof.
  split.
  - destruct (single_api_call_raised self now (TransportRaises e) wid w e)
      as (q & Hq & H1 & H2); [by left|].
    exists (Outcome wid q now 0 0 false None None (Some (Py.VStr e))).
    split_and!; done.
  - intros rp.
    destruct (single_api_call_total self now rp wid w) as (p & r & _ & ? & ? & _).
    by exists r.
Qed.

(** ** Thread pool *)

Lemma advance_queued self e i w :
  ∃ r, advance self e (Queued i) w = (Some (Finished (Ok r)), append_result r w) ∧
       single_api_call_async self (isoformat_now e i) (transport e i) i = Ok r.
Proof.
  unfold advance.
  destruct (single_api_call_total self (isoformat_now e i) (transport e i) i w)
    as (p & r & _ & -> & ? & _).
  by exists r.
Qed.

Lemma worker_callback_results r w : results (worker_callback r w) = results w.
Proof. by destruct r. Qed.

Lemma worker_callback_files r w : files (worker_callback r w) = files w.
Proof. by destruct r. Qed.

Lemma work_app ts1 ts2 : work (ts1 ++ ts2) = (work ts1 + work ts2)%nat.
Proof. apply sum_list_with_app. Qed.

Lemma owed_app self e ts1 ts2 :
  owed self e (ts1 ++ ts2) = owed self e ts1 ++ owed self e ts2.
Proof. apply omap_app. Qed.

(** Each move takes one unit of work. *)
Lemma pool_step_work self e p p' :
  pool_step self e p p' → work (pending p) = S (work (pending p')).
Proof.
  destruct 1 as [pre t post w].
  destruct t as [i|r].
  - destruct (advance_queued self e i w) as (r & -> & _); simpl.
    rewrite !work_app. unfold work; simpl. lia.
  - simpl. rewrite !work_app. unfold work; simpl. lia.
Qed.

(** The records collected so far, with those still owed, are at every
    moment the records of the run. *)
Lemma pool_step_records self e p p' :
  pool_step self e p p' →
  (Ok <$> results (pool_world p')) ++ owed self e (pending p')
  ≡ₚ (Ok <$> results (pool_world p)) ++ owed self e (pending p).
Proof.
  destruct 1 as [pre t post w].
  destruct t as [i|r].
  - destruct (advance_queued self e i w) as (r & -> & Hr); simpl.
    rewrite !owed_app. simpl. rewrite Hr, fmap_app. simpl.
    rewrite <- !app_assoc. apply Permutation_app_head.
    simpl. by rewrite Permutation_middle.
  - simpl. rewrite worker_callback_results, !owed_app. done.
Qed.

Lemma pool_step_files self e p p' :
  pool_step self e p p' → files (pool_world p') = files (pool_world p).
Proof.
  destruct 1 as [pre t post w].
  destruct t as [i|r].
  - by destruct (advance_queued self e i w) as (r & -> & _).
  - simpl. apply worker_callback_files.
Qed.

Lemma pool_rtc_records self e p p' :
  rtc (pool_step self e) p p' →
  (Ok <$> results (pool_world p')) ++ owed self e (pending p')
  ≡ₚ (Ok <$> results (pool_world p)) ++ owed self e (pending p).
Proof.
  induction 1 as [|p1 p2 p3 Hstep _ IH]; [done|].
  rewrite IH. by apply pool_step_records.
Qed.

Lemma pool_rtc_files self e p p' :
  rtc (pool_step self e) p p' → files (pool_world p') = files (pool_world p).
Proof.
  induction 1 as [|p1 p2 p3 Hstep _ IH]; [done|].
  rewrite IH. by apply (pool_step_files self e).
Qed.

Lemma pool_nsteps_work self e n p p' :
  nsteps (pool_step self e) n p p' →
  work (pending p) = (n + work (pending p'))%nat.
Proof.
  induction 1 as [|n p1 p2 p3 Hstep _ IH]; [done|].
  apply pool_step_work in Hstep. lia.
Qed.

(** The scheduled move is a move of the pool. *)
Lemma pool_next_step self e i p :
  pending p ≠ [] → pool_step self e p (pool_next self e i p).
Proof.
  intros Hne. unfold pool_next.
  set (k := (i mod length (pending p))%nat).
  assert (k < length (pending p))%nat as Hk.
  { apply Nat.mod_upper_bound. by destruct (pending p). }
  destruct (lookup_lt_is_Some_2 _ _ Hk) as [t Ht]. rewrite Ht.
  destruct p as [ts w]; simpl in *.
  rewrite <- (take_drop_middle ts k t Ht) at 1.
  pose proof (pool_step_at self e (take k ts) t (drop (S k) ts) w) as Hstep.
  by destruct (advance self e t w).
Qed.

Lemma pool_run_rtc self e sched fuel p :
  rtc (pool_step self e) p (pool_run self e sched fuel p).
Proof.
  revert sched p. induction fuel as [|fuel IH]; intros sched p; simpl; [done|].
  destruct (pending p) eqn:E; [done|].
  eapply rtc_l; [|apply IH].
  apply pool_next_step. by rewrite E.
Qed.

(** With one unit of fuel per unit of work the pool settles. *)
Lemma pool_run_settles self e sched fuel p :
  (work (pending p) ≤ fuel)%nat →
  pending (pool_run self e sched fuel p) = [].
Proof.
  revert sched p. induction fuel as [|fuel IH]; intros sched p Hfuel; simpl.
  - destruct (pending p) as [|t ts]; [done|].
    unfold work in Hfuel; simpl in Hfuel. destruct t; simpl in Hfuel; lia.
  - destruct (pending p) eqn:E; [done|].
    apply IH.
    assert (pending p ≠ []) as Hne by by rewrite E.
    apply (pool_next_step self e (sched O)) in Hne.
    apply pool_step_work in Hne. rewrite <- E in Hfuel. lia.
Qed.

Lemma submitted_work self :
  work (submitted self) = (2 * Z.to_nat (num_workers self))%nat.
Proof.
  unfold submitted, Py.range.
  rewrite <- (length_seq (Z.to_nat (num_workers self)) 0) at 2.
  induction (seq 0 (Z.to_nat (num_workers self))) as [|x l IH]; [done|].
  rewrite !fmap_cons. unfold work in *. simpl in *. lia.
Qed.

(** All submitted tasks are queued: what they owe is what [gather]
    collects. *)
Lemma submitted_owed self e : owed self e (submitted self) = gather self e.
Proof.
  unfold submitted, gather, owed.
  induction (Py.range (num_workers self)) as [|i l IH]; [done|].
  csimpl. by f_equal.
Qed.

Lemma gather_length self e : length (gather self e) = Z.to_nat (num_workers self).
Proof. unfold gather, Py.range. by rewrite !length_fmap, length_seq. Qed.

(** ** Analyzer: what it leaves unchanged *)

Lemma analyze_results_world self now w :
  results (analyze_results self now w).2 = results w ∧
  files (analyze_results self now w).2 = files w.
Proof. unfold analyze_results. by destruct (results w) eqn:E; simpl; rewrite ?E. Qed.

Lemma analyze_results_nonempty self now w :
  results w ≠ [] →
  analyze_results self now w
  = (Some (build_analysis self now (results w)),
     print (Rendering (build_analysis self now (results w))) w).
Proof. unfold analyze_results. by destruct (results w). Qed.

Lemma analyze_results_empty self now w :
  results w = [] →
  analyze_results self now w = (None, print (Say no_results_message) w).
Proof. unfold analyze_results. by intros ->. Qed.

(** ** asyncio *)

(** No coroutine raises: [gather] holds records only. *)
Lemma gather_all_ok self e : ∃ rs, gather self e = Ok <$> rs.
Proof.
  unfold gather.
  induction (Py.range (num_workers self)) as [|i l [rs IH]].
  - by exists [].
  - destruct (single_api_call_total self (isoformat_now e (i + 1))
                (transport e (i + 1)) (i + 1) init_world)
      as (p & r & _ & _ & Hr & _).
    exists (r :: rs). csimpl. by rewrite Hr, IH.
Qed.

Lemma process_results_ok rs w :
  results (fold_left process_result (Ok <$> rs) w) = results w ++ rs.
Proof.
  revert w. induction rs as [|r rs IH]; intros w; csimpl.
  - by rewrite app_nil_r.
  - rewrite IH. simpl. by rewrite <- app_assoc.
Qed.

Lemma process_results_files l w :
  files (fold_left process_result l w) = files w.
Proof.
  revert w. induction l as [|r l IH]; intros w; simpl; [done|].
  rewrite IH. by destruct r.
Qed.

(** ** Dispatch collects one record per request *)

(** C1. With [num_workers >= 1], once dispatch has settled the
    collection holds exactly the records of the [num_workers] requests,
    none lost and none twice, failed requests included.
    Thread pool: under every interleaving, a pool with pending tasks can
    move, no run has more than [2 * num_workers] moves, and a settled pool
    holds the old records and, in some order, one record per request (the
    record the coroutine of the same worker returns); [run_parallel_sync]
    returns under every schedule with these records analysed.
    asyncio: [run_parallel_async] returns with the gathered records
    appended in task order. *)
Theorem dispatch_yields_N_records (self : tester) (e : env) (w0 : world) :
  (1 ≤ num_workers self)%Z →
  let N := Z.to_nat (num_workers self) in
  (∀ p, rtc (pool_step self e) (Pool (submitted self) w0) p →
     (pending p ≠ [] → ∃ p', pool_step self e p p') ∧
     (pending p = [] →
        length (results (pool_world p)) = (length (results w0) + N)%nat ∧
        Ok <$> results (pool_world p) ≡ₚ (Ok <$> results w0) ++ gather self e)) ∧
  (∀ n p, nsteps (pool_step self e) n (Pool (submitted self) w0) p →
     (n ≤ 2 * N)%nat) ∧
  (∀ sched, ∃ a w,
     run_parallel_sync self e sched w0 = (Ok (Some a), w) ∧
     length (results w) = (length (results w0) + N)%nat ∧
     Ok <$> results w ≡ₚ (Ok <$> results w0) ++ gather self e ∧
     total_requests a = length (results w)) ∧
  (∃ a w,
     run_parallel_async self e w0 = (Ok (Some a), w) ∧
     length (results w) = (length (results w0) + N)%nat ∧
     Ok <$> results w = (Ok <$> results w0) ++ gather self e ∧
     total_requests a = length (results w)).
Proof.
  intros HN N.
  assert (∀ w p, rtc (pool_step self e) (Pool (submitted self) w) p →
            pending p = [] →
            length (results (pool_world p)) = (length (results w) + N)%nat ∧
            Ok <$> results (pool_world p) ≡ₚ (Ok <$> results w) ++ gather self e)
    as Hsettled.
  { intros w p Hrun Hdone.
    apply pool_rtc_records in Hrun. simpl in Hrun.
    rewrite Hdone, submitted_owed in Hrun. simpl in Hrun.
    rewrite app_nil_r in Hrun. split; [|done].
    apply Permutation_length in Hrun.
    rewrite length_app, !length_fmap, gather_length in Hrun. done. }
  split_and!.
  - intros p Hrun. split; [|by apply Hsettled].
    intros Hne. exists (pool_next self e 0 p). by apply pool_next_step.
  - intros n p Hrun. apply pool_nsteps_work in Hrun. simpl in Hrun.
    rewrite submitted_work in Hrun. subst N. lia.
  - intros sched. unfold run_parallel_sync.
    destruct (Z.leb_spec (num_workers self) 0) as [?|_]; [lia|].
    set (w1 := print (StartLines (num_workers self) false) w0).
    set (p := pool_run self e sched _ _).
    destruct (Hsettled w1 p) as [Hlen Hperm].
    { apply pool_run_rtc. }
    { apply pool_run_settles. simpl. by rewrite submitted_work. }
    set (w2 := print TimingLines (pool_world p)).
    assert (results w2 ≠ []) as Hne.
    { intros Hnil. apply (f_equal length) in Hnil.
      simpl in Hnil. rewrite Hlen in Hnil. subst N. simpl in Hnil. lia. }
    rewrite (analyze_results_nonempty _ _ _ Hne).
    do 2 eexists. split; [done|]. simpl. split_and!; done.
  - unfold run_parallel_async.
    destruct (gather_all_ok self e) as [rs Hrs].
    set (w1 := print (StartLines (num_workers self) true) w0).
    set (w2 := print TimingLines (fold_left process_result (gather self e) w1)).
    assert (results w2 = results w0 ++ rs) as Hres.
    { subst w2. simpl. rewrite Hrs. by rewrite process_results_ok. }
    assert (length rs = N) as Hlen.
    { rewrite <- (length_fmap Ok rs), <- Hrs. apply gather_length. }
    assert (results w2 ≠ []) as Hne.
    { rewrite Hres. intros Hnil. apply (f_equal length) in Hnil.
      rewrite length_app, Hlen in Hnil. subst N. simpl in Hnil. lia. }
    rewrite (analyze_results_nonempty _ _ _ Hne).
    do 2 eexists. split; [done|]. simpl. fold w1. 
    change (results (fold_left process_result (gather self e) w1)) with (results w2).
    rewrite Hres, Hrs, fmap_app, length_app, Hlen. done.
Qed.

Lemma dispatch_yields_N_records_witness :
  ∃ a w,
    run_parallel_sync (Tester "K" 3) sample_env round_robin init_world
    = (Ok (Some a), w) ∧
    length (results w) = 3%nat ∧ total_requests a = 3%nat.
Proof.
  destruct (dispatch_yields_N_records (Tester "K" 3) sample_env init_world)
    as (_ & _ & Hsync & _); [simpl; lia|].
  destruct (Hsync round_robin) as (a & w & Hrun & Hlen & _ & Htotal).
  exists a, w. split_and!; [done|done|by rewrite Htotal].
Defined.

(** ** Numbers *)

Lemma round_half_even_floor q :
  (Qfloor q ≤ Py.round_half_even q ≤ Qfloor q + 1)%Z.
Proof.
  unfold Py.round_half_even.
  destruct (_ ?= _)%Q; [destruct (Z.even _)|..]; lia.
Qed.

Lemma round_half_even_ge (a : Z) q :
  (inject_Z a <= q)%Q → (a ≤ Py.round_half_even q)%Z.
Proof.
  intros H. apply Qfloor_resp_le in H. rewrite Qfloor_Z in H.
  pose proof (round_half_even_floor q). lia.
Qed.

Lemma round_half_even_le (b : Z) q :
  (q <= inject_Z b)%Q → (Py.round_half_even q ≤ b)%Z.
Proof.
  intros H. pose proof (Qfloor_resp_le _ _ H) as Hf. rewrite Qfloor_Z in Hf.
  destruct (decide (Qfloor q = b)) as [Heq|Hne].
  - unfold Py.round_half_even.
    assert ((q - inject_Z (Qfloor q) ?= 1 # 2)%Q = Lt) as ->.
    { apply (proj1 (Qlt_alt _ _)). rewrite Heq. lra. }
    lia.
  - pose proof (round_half_even_floor q). lia.
Qed.

Lemma pow10_pos (n : nat) : (0 < 10 ^ Z.of_nat n)%Z.
Proof. apply Z.pow_pos_nonneg; lia. Qed.

(** [round(x, n)] is the nearest multiple of [10^-n]. *)
Lemma round_eq x n :
  (Py.round x n
   == inject_Z (Py.round_half_even (x * inject_Z (10 ^ Z.of_nat n)))
      / inject_Z (10 ^ Z.of_nat n))%Q.
Proof.
  unfold Py.round. pose proof (pow10_pos n) as Hpos.
  rewrite (Qmake_Qdiv _ (Z.to_pos _)). by rewrite Z2Pos.id.
Qed.

Lemma round_decimals x n : decimals n (Py.round x n).
Proof. eexists. apply round_eq. Qed.

Lemma round_ge a x n : decimals n a → (a <= x)%Q → (a <= Py.round x n)%Q.
Proof.
  intros [k Hk] Hle. rewrite round_eq, Hk.
  pose proof (pow10_pos n) as Hpos.
  assert (0 < inject_Z (10 ^ Z.of_nat n))%Q as HposQ.
  { change 0%Q with (inject_Z 0). by rewrite <- Zlt_Qlt. }
  apply Qmult_le_r with (z := inject_Z (10 ^ Z.of_nat n)); [done|].
  unfold Qdiv. rewrite <- !Qmult_assoc, (Qmult_comm (/ _)), !Qmult_inv_r, !Qmult_1_r by lra.
  rewrite <- Zle_Qle. apply round_half_even_ge.
  rewrite Hk in Hle.
  apply Qmult_le_r with (z := inject_Z (10 ^ Z.of_nat n)) in Hle; [|done].
  unfold Qdiv in Hle. rewrite <- !Qmult_assoc, (Qmult_comm (/ _)), !Qmult_inv_r, !Qmult_1_r in Hle by lra.
  done.
Qed.

Lemma round_le b x n : decimals n b → (x <= b)%Q → (Py.round x n <= b)%Q.
Proof.
  intros [k Hk] Hle. rewrite round_eq, Hk.
  pose proof (pow10_pos n) as Hpos.
  assert (0 < inject_Z (10 ^ Z.of_nat n))%Q as HposQ.
  { change 0%Q with (inject_Z 0). by rewrite <- Zlt_Qlt. }
  apply Qmult_le_r with (z := inject_Z (10 ^ Z.of_nat n)); [done|].
  unfold Qdiv. rewrite <- !Qmult_assoc, (Qmult_comm (/ _)), !Qmult_inv_r, !Qmult_1_r by lra.
  rewrite <- Zle_Qle. apply round_half_even_le.
  rewrite Hk in Hle.
  apply Qmult_le_r with (z := inject_Z (10 ^ Z.of_nat n)) in Hle; [|done].
  unfold Qdiv in Hle. rewrite <- !Qmult_assoc, (Qmult_comm (/ _)), !Qmult_inv_r, !Qmult_1_r in Hle by lra.
  done.
Qed.

Lemma decimals_Z n (z : Z) : decimals n (inject_Z z).
Proof.
  exists (z * 10 ^ Z.of_nat n)%Z. pose proof (pow10_pos n).
  rewrite inject_Z_mult. field.
  change 0%Q with (inject_Z 0). rewrite inject_Z_injective. lia.
Qed.

(** [sum], [min], [max] *)

Lemma sum_acc l a : (fold_left Qplus l a == a + Py.sum l)%Q.
Proof.
  unfold Py.sum. revert a. induction l as [|x l IH]; intros a; simpl.
  - lra.
  - rewrite (IH (a + x)%Q), (IH (0 + x)%Q). ring.
Qed.

Lemma sum_cons x l : (Py.sum (x :: l) == x + Py.sum l)%Q.
Proof. unfold Py.sum at 1. simpl. rewrite sum_acc. lra. Qed.

Lemma len_cons {A} (x : A) l : (Py.len (x :: l) == 1 + Py.len l)%Q.
Proof.
  unfold Py.len. simpl length. rewrite Nat2Z.inj_succ, <- Z.add_1_l.
  by rewrite inject_Z_plus.
Qed.

Lemma len_nonneg {A} (l : list A) : (0 <= Py.len l)%Q.
Proof.
  unfold Py.len. change 0%Q with (inject_Z 0). rewrite <- Zle_Qle. lia.
Qed.

Lemma sum_ge m l : (∀ y, y ∈ l → (m <= y)%Q) → (Py.len l * m <= Py.sum l)%Q.
Proof.
  induction l as [|x l IH]; intros H.
  - unfold Py.len, Py.sum, inject_Z. simpl. rewrite Nat2Z.inj_0. lra.
  - rewrite sum_cons, len_cons.
    assert (m <= x)%Q by (apply H; left).
    assert (Py.len l * m <= Py.sum l)%Q by (apply IH; intros; apply H; by right).
    lra.
Qed.

Lemma sum_le m l : (∀ y, y ∈ l → (y <= m)%Q) → (Py.sum l <= Py.len l * m)%Q.
Proof.
  induction l as [|x l IH]; intros H.
  - unfold Py.len, Py.sum, inject_Z. simpl. rewrite Nat2Z.inj_0. lra.
  - rewrite sum_cons, len_cons.
    assert (x <= m)%Q by (apply H; left).
    assert (Py.sum l <= Py.len l * m)%Q by (apply IH; intros; apply H; by right).
    lra.
Qed.

Lemma min_spec x l :
  Py.min x l ∈ x :: l ∧ ∀ y, y ∈ x :: l → (Py.min x l <= y)%Q.
Proof.
  unfold Py.min. revert x. induction l as [|z l IH]; intros x; simpl.
  - split; [left|]. intros y ->%list_elem_of_singleton. lra.
  - destruct (IH (Qmin x z)) as [Hin Hle]. split.
    + apply elem_of_cons in Hin as [->|Hin]; [|by do 2 right].
      unfold Qmin, GenericMinMax.gmin.
      destruct (x ?= z)%Q; repeat constructor.
    + intros y Hy. 
      assert (fold_left Qmin l (Qmin x z) <= Qmin x z)%Q as H0 by (apply Hle; left).
      apply elem_of_cons in Hy as [->|Hy].
      * pose proof (Q.le_min_l x z). lra.
      * apply elem_of_cons in Hy as [->|Hy].
        -- pose proof (Q.le_min_r x z). lra.
        -- apply Hle. by right.
Qed.

Lemma max_spec x l :
  Py.max x l ∈ x :: l ∧ ∀ y, y ∈ x :: l → (y <= Py.max x l)%Q.
Proof.
  unfold Py.max. revert x. induction l as [|z l IH]; intros x; simpl.
  - split; [left|]. intros y ->%list_elem_of_singleton. lra.
  - destruct (IH (Qmax x z)) as [Hin Hle]. split.
    + apply elem_of_cons in Hin as [->|Hin]; [|by do 2 right].
      unfold Qmax, GenericMinMax.gmax.
      destruct (x ?= z)%Q; repeat constructor.
    + intros y Hy. 
      assert (Qmax x z <= fold_left Qmax l (Qmax x z))%Q as H0 by (apply Hle; left).
      apply elem_of_cons in Hy as [->|Hy].
      * pose proof (Q.le_max_l x z). lra.
      * apply elem_of_cons in Hy as [->|Hy].
        -- pose proof (Q.le_max_r x z). lra.
        -- apply Hle. by right.
Qed.

(** ** Binary64 on the numbers used below *)

(** In binary64 the mean of the synthetic latencies is 108.125 exactly,
    [round] takes it to the float next to 108.12, and the success rate
    [8 / 10 * 100] is 80. *)
Lemma binary64_synthetic_numbers :
  (Binary64.mean [100; 120; 90; 110; 130; 95; 105; 115] =? 108.125)%float = true ∧
  (∃ q, Binary64.exact (Binary64.round 108.125 2) = Some q ∧
        (Qabs (q - 108.12) < 1 # 1000000000000)%Q) ∧
  (Binary64.round (8 / 10 * 100) 2 =? 80)%float = true.
Proof. split_and!; [by vm_compute|eexists; split; by vm_compute|by vm_compute]. Qed.

(** In binary64 the mean of three latencies of 50.05 is below 50.05, off
    by less than 0.005, and [round] takes it back to 50.05; the mean of
    0.01 and 0.02 is below 0.015, off by less than 0.005, and [round]
    takes it to 0.01. *)
Lemma binary64_mean_error :
  let x := (Binary64.of_Z 5005 / Binary64.of_Z 100)%float in
  let y := (Binary64.of_Z 1 / Binary64.of_Z 100)%float in
  let z := (Binary64.of_Z 2 / Binary64.of_Z 100)%float in
  ((Binary64.mean [x; x; x] <? x)%float = true ∧
   (Binary64.round (Binary64.mean [x; x; x]) 2 =? x)%float = true ∧
   ∃ q, Binary64.exact (Binary64.mean [x; x; x]) = Some q ∧
        (Qabs (q - avg_response_time [50.05; 50.05; 50.05]) < 1 # 200)%Q) ∧
  ((Binary64.round (Binary64.mean [y; z]) 2 =? y)%float = true ∧
   (Py.round (avg_response_time [0.01; 0.02]) 2 == 0.02)%Q ∧
   ∃ q, Binary64.exact (Binary64.mean [y; z]) = Some q ∧
        (q < 0.015)%Q ∧
        (Qabs (q - avg_response_time [0.01; 0.02]) < 1 # 200)%Q).
Proof.
  split; split_and!; try by vm_compute.
  - eexists. split; by vm_compute.
  - eexists. split_and!; by vm_compute.
Qed.

(** ** Analyzer: rates and latency statistics *)

Lemma len_pos {A} (l : list A) : l ≠ [] → (0 < Py.len l)%Q.
Proof.
  intros H. unfold Py.len. change 0%Q with (inject_Z 0). rewrite <- Zlt_Qlt.
  destruct l; [done|]. simpl. lia.
Qed.

Lemma len_le {A} (l k : list A) :
  (length l ≤ length k)%nat → (Py.len l <= Py.len k)%Q.
Proof. intros H. unfold Py.len. rewrite <- Zle_Qle. lia. Qed.

Lemma success_rate_bounds rs :
  rs ≠ [] → (0 <= success_rate rs <= 100)%Q.
Proof.
  intros Hne. unfold success_rate.
  set (s := filter _ rs).
  pose proof (len_pos rs Hne) as Hpos.
  pose proof (len_nonneg s) as H0.
  pose proof (len_le s rs (length_filter _ rs)) as H1.
  assert (0 <= Py.len s / Py.len rs <= 1)%Q as [Hlo Hhi].
  { split.
    - apply Qle_shift_div_l; [done|]. lra.
    - apply Qle_shift_div_r; [done|]. lra. }
  lra.
Qed.

Lemma avg_response_time_bounds x l :
  (min_response_time (x :: l) <= avg_response_time (x :: l)
   <= max_response_time (x :: l))%Q.
Proof.
  unfold avg_response_time, min_response_time, max_response_time.
  assert (0 < Py.len (x :: l))%Q as Hpos by by apply len_pos.
  destruct (min_spec x l) as [_ Hmin]. destruct (max_spec x l) as [_ Hmax].
  apply sum_ge in Hmin. apply sum_le in Hmax. split.
  - apply Qle_shift_div_l; [done|]. lra.
  - apply Qle_shift_div_r; [done|]. lra.
Qed.

(** The reported statistics of a set with two-decimal latencies. *)
Lemma reported_avg_bounds x l :
  Forall (decimals 2) (x :: l) →
  (min_response_time (x :: l) <= Py.round (avg_response_time (x :: l)) 2
   <= max_response_time (x :: l))%Q.
Proof.
  intros Hdec. pose proof (avg_response_time_bounds x l) as [Hlo Hhi].
  rewrite Forall_forall in Hdec.
  destruct (min_spec x l) as [Hmin _]. destruct (max_spec x l) as [Hmax _].
  split.
  - apply round_ge; [|done]. by apply Hdec.
  - apply round_le; [|done]. by apply Hdec.
Qed.

(** The dispatcher records latencies with two decimals. *)
Lemma single_api_call_decimals self now rp wid r :
  single_api_call_async self now rp wid = Ok r →
  decimals 2 (response_time_ms r).
Proof.
  unfold single_api_call_async.
  destruct (create_request_params self wid) as [p|]; [|done].
  destruct rp as [e|elapsed code b].
  - intros [= <-]. apply (decimals_Z 2 0).
  - destruct (request_outcome _ _ _ _ _ _) as [r'|e] eqn:E.
    + intros [= <-]. apply request_outcome_fields in E as (_ & _ & _ & _ & ->).
      apply round_decimals.
    + intros [= <-]. apply (decimals_Z 2 0).
Qed.

Lemma outcome_records_decimals rs :
  Forall outcome_record rs →
  Forall (decimals 2) (response_time_ms <$> filter (λ r, success r = true) rs).
Proof.
  intros H. apply Forall_fmap, Forall_forall.
  intros r [_ Hin]%list_elem_of_filter.
  rewrite Forall_forall in H. destruct (H r Hin) as (self & now & rp & i & Hr).
  by eapply single_api_call_decimals.
Qed.

(** Rounding absorbs an error below half a unit of the last decimal. *)
Lemma round_half_even_ge_near (a : Z) q :
  (inject_Z a - (1 # 2) < q)%Q → (a ≤ Py.round_half_even q)%Z.
Proof.
  intros H. pose proof (round_half_even_floor q) as [Hf _].
  pose proof (Qlt_floor q) as Hlt. rewrite inject_Z_plus in Hlt.
  change (inject_Z 1) with 1%Q in Hlt.
  destruct (Z_lt_le_dec (Qfloor q) a) as [Hsmall|?]; [|lia].
  assert (Qfloor q = a - 1)%Z as Hfloor.
  { assert (inject_Z (a - 1) < inject_Z (Qfloor q + 1))%Q as Hz.
    { unfold Z.sub. rewrite !inject_Z_plus, inject_Z_opp.
      change (inject_Z 1) with 1%Q. lra. }
    rewrite <- Zlt_Qlt in Hz. lia. }
  unfold Py.round_half_even.
  assert ((q - inject_Z (Qfloor q) ?= 1 # 2)%Q = Gt) as ->.
  { apply (proj1 (Qgt_alt _ _)). rewrite Hfloor.
    unfold Z.sub. rewrite inject_Z_plus, inject_Z_opp.
    change (inject_Z 1) with 1%Q. lra. }
  lia.
Qed.

Lemma round_half_even_le_near (b : Z) q :
  (q < inject_Z b + (1 # 2))%Q → (Py.round_half_even q ≤ b)%Z.
Proof.
  intros H. pose proof (round_half_even_floor q) as [_ Hc].
  pose proof (Qfloor_le q) as Hle.
  destruct (Z_lt_le_dec (Qfloor q) b) as [?|Hbig]; [lia|].
  assert (Qfloor q = b) as Hfloor.
  { assert (inject_Z (Qfloor q) < inject_Z (b + 1))%Q as Hz.
    { rewrite inject_Z_plus. change (inject_Z 1) with 1%Q. lra. }
    rewrite <- Zlt_Qlt in Hz. lia. }
  unfold Py.round_half_even.
  assert ((q - inject_Z (Qfloor q) ?= 1 # 2)%Q = Lt) as ->.
  { apply (proj1 (Qlt_alt _ _)). rewrite Hfloor. lra. }
  lia.
Qed.

Lemma round_ge_near a y :
  decimals 2 a → (a - (1 # 200) < y)%Q → (a <= Py.round y 2)%Q.
Proof.
  intros [k Hk] Hlt.
  rewrite round_eq, Hk. change (inject_Z (10 ^ Z.of_nat 2)) with 100%Q in *.
  apply Qle_shift_div_l; [done|].
  assert (inject_Z k / 100 * 100 == inject_Z k)%Q as -> by field.
  rewrite <- Zle_Qle. apply round_half_even_ge_near.
  rewrite Hk in Hlt.
  assert (inject_Z k == inject_Z k / 100 * 100)%Q as Hk' by field.
  lra.
Qed.

Lemma round_le_near b y :
  decimals 2 b → (y < b + (1 # 200))%Q → (Py.round y 2 <= b)%Q.
Proof.
  intros [k Hk] Hlt.
  rewrite round_eq, Hk. change (inject_Z (10 ^ Z.of_nat 2)) with 100%Q in *.
  apply Qle_shift_div_r; [done|].
  assert (inject_Z k / 100 * 100 == inject_Z k)%Q as -> by field.
  rewrite <- Zle_Qle. apply round_half_even_le_near.
  rewrite Hk in Hlt.
  assert (inject_Z k == inject_Z k / 100 * 100)%Q as Hk' by field.
  lra.
Qed.

(** ** Analyzer: the error of the rounded mean *)

Lemma Qabs_cases t :
  ((0 <= t)%Q ∧ (Qabs t == t)%Q) ∨ ((t <= 0)%Q ∧ (Qabs t == - t)%Q).
Proof.
  destruct (Qlt_le_dec t 0) as [H|H].
  - right. split; [lra|]. apply Qabs_neg. lra.
  - left. split; [done|]. by apply Qabs_pos.
Qed.

Ltac abs_cases t :=
  let a := fresh "a" in
  let E := fresh "E" in
  destruct (Qabs_cases t) as [[? E]|[? E]];
  revert E; generalize (Qabs t); intros a E.

Lemma sum_abs_nonneg l : (0 <= Py.sum (Qabs <$> l))%Q.
Proof.
  induction l as [|x l IH]; [done|].
  rewrite fmap_cons, sum_cons. pose proof (Qabs_nonneg x). lra.
Qed.

Section rounded_sum.
Context (fl : Q → Q) (u : Q).
Hypothesis u_nonneg : (0 <= u)%Q.
Hypothesis fl_error : ∀ x, (Qabs (fl x - x) <= u * Qabs x)%Q.

(** After [k] rounded additions the sum is off by at most [2 k u B], where
    [B] bounds the sum of the absolute values. *)
Lemma rounded_fold_error (B : Q) l : ∀ s S k,
  (0 <= k)%Q →
  (Qabs (s - S) <= 2 * k * (u * B))%Q →
  (Qabs S + Py.sum (Qabs <$> l) <= B)%Q →
  (2 * (k + Py.len l) * u <= 1)%Q →
  (Qabs (fold_left (λ a x, fl (a + x)%Q) l s - (S + Py.sum l))
   <= 2 * (k + Py.len l) * (u * B))%Q.
Proof.
  induction l as [|x l IH]; intros s S k Hk Hs HB Hn.
  - simpl fold_left. change (Py.len []) with 0%Q. change (Py.sum []) with 0%Q.
    assert (s - (S + 0) == s - S)%Q as E1 by ring.
    assert (2 * (k + 0) * (u * B) == 2 * k * (u * B))%Q as E2 by ring.
    by rewrite E1, E2.
  - simpl fold_left.
    pose proof (sum_abs_nonneg l) as Hl. pose proof (len_nonneg l) as Hlen.
    rewrite fmap_cons, sum_cons in HB. rewrite len_cons in Hn.
    assert (fold_left (λ a x0, fl (a + x0)%Q) l (fl (s + x))
            - (S + Py.sum (x :: l))
            == fold_left (λ a x0, fl (a + x0)%Q) l (fl (s + x))
               - ((S + x) + Py.sum l))%Q as E1.
    { rewrite sum_cons. ring. }
    assert (2 * (k + Py.len (x :: l)) * (u * B)
            == 2 * ((k + 1) + Py.len l) * (u * B))%Q as E2.
    { rewrite len_cons. ring. }
    rewrite E1, E2. clear E1 E2.
    pose proof (fl_error (s + x)) as Hfl.
    apply IH.
    + lra.
    + assert (fl (s + x) - (S + x) == (fl (s + x) - (s + x)) + (s - S))%Q
        as E1 by ring.
      rewrite E1. clear E1.
      revert Hfl Hs. generalize (fl (s + x) - (s + x))%Q. intros A Hfl Hs.
      pose proof (Qabs_nonneg S) as HS0. pose proof (Qabs_nonneg x) as Hx0.
      assert (0 <= B)%Q as HB0 by lra.
      assert (0 <= u * B)%Q as Hc0 by nra.
      assert (2 * k * u * (u * B) <= u * B)%Q as Hkc.
      { assert (2 * k * u <= 1)%Q by nra. nra. }
      assert (Qabs (s + x) <= B + 2 * k * (u * B))%Q as Hsx.
      { revert Hs HB.
        abs_cases (s + x)%Q; abs_cases (s - S)%Q; abs_cases S; abs_cases x;
          intros; lra. }
      assert (u * Qabs (s + x) <= u * B + 2 * k * u * (u * B))%Q as Hux.
      { revert Hsx. generalize (Qabs (s + x)). intros; nra. }
      revert Hfl Hs Hux. generalize (Qabs (s + x)).
      abs_cases (A + (s - S))%Q; abs_cases A; abs_cases (s - S)%Q; intros; lra.
    + revert HB. abs_cases (S + x)%Q; abs_cases S; abs_cases x; intros; lra.
    + lra.
Qed.

Lemma rounded_abs x M : (0 <= M)%Q → (Qabs x <= M)%Q →
  (Qabs (fl x) <= (1 + u) * M)%Q ∧ (Qabs (fl x - x) <= u * M)%Q.
Proof.
  intros HM Hx. pose proof (fl_error x) as Hfl.
  assert (u * Qabs x <= u * M)%Q as Hux.
  { revert Hx. generalize (Qabs x). intros; nra. }
  revert Hfl Hux Hx.
  abs_cases x; abs_cases (fl x); abs_cases (fl x - x)%Q; intros; split; lra.
Qed.

Lemma rounded_inputs l M :
  (0 <= M)%Q → Forall (λ x, (Qabs x <= M)%Q) l →
  (Py.sum (Qabs <$> (fl <$> l)) <= Py.len l * ((1 + u) * M))%Q ∧
  (Qabs (Py.sum (fl <$> l) - Py.sum l) <= Py.len l * (u * M))%Q ∧
  (Qabs (Py.sum l) <= Py.len l * M)%Q.
Proof.
  intros HM. induction 1 as [|x l Hx _ (IH1 & IH2 & IH3)].
  - change (Py.len []) with 0%Q. split_and!; by vm_compute.
  - destruct (rounded_abs x M HM Hx) as [H1 H2].
    rewrite !fmap_cons, !sum_cons, len_cons. split_and!.
    + lra.
    + assert (fl x + Py.sum (fl <$> l) - (x + Py.sum l)
              == (fl x - x) + (Py.sum (fl <$> l) - Py.sum l))%Q as E by ring.
      rewrite E. clear E. revert H2 IH2.
      generalize (fl x - x)%Q (Py.sum (fl <$> l) - Py.sum l)%Q. intros a b.
      abs_cases (a + b)%Q; abs_cases a; abs_cases b; intros; lra.
    + revert Hx IH3. generalize (Py.sum l). intros b.
      abs_cases (x + b)%Q; abs_cases x; abs_cases b; intros; lra.
Qed.

(** The mean computed with rounded additions and a rounded division, on
    rounded inputs, against the exact mean of the exact inputs. *)
Lemma rounded_mean_error l M :
  l ≠ [] → (0 <= M)%Q → Forall (λ x, (Qabs x <= M)%Q) l →
  ((2 * Py.len l + 2) * u <= 1)%Q →
  (Qabs (Rounded.mean fl (fl <$> l) - Py.sum l / Py.len l)
   <= (2 * Py.len l + 6) * (u * M))%Q.
Proof.
  intros Hne HM Hl Hn. unfold Rounded.mean, Rounded.sum.
  destruct (rounded_inputs l M HM Hl) as (H1 & H2 & H3).
  assert (Py.len (fl <$> l) = Py.len l) as Hlen
    by (unfold Py.len; by rewrite length_fmap).
  rewrite Hlen.
  pose proof (len_pos l Hne) as Hpos.
  assert (1 <= Py.len l)%Q as Hone.
  { destruct l; [done|]. rewrite len_cons. pose proof (len_nonneg l). lra. }
  pose proof (rounded_fold_error (Py.len l * ((1 + u) * M)) (fl <$> l) 0 0 0)
    as Hsum.
  rewrite Hlen in Hsum.
  set (sn := fold_left (λ a x, fl (a + x)%Q) (fl <$> l) 0%Q) in *.
  assert (Qabs (sn - Py.sum (fl <$> l))
          <= 2 * Py.len l * (u * (Py.len l * ((1 + u) * M))))%Q as Hsn.
  { assert (sn - Py.sum (fl <$> l) == sn - (0 + Py.sum (fl <$> l)))%Q
      as E by ring.
    rewrite E. clear E.
    assert (2 * Py.len l * (u * (Py.len l * ((1 + u) * M)))
            == 2 * (0 + Py.len l) * (u * (Py.len l * ((1 + u) * M))))%Q
      as E by ring.
    rewrite E. clear E.
    apply Hsum; [lra|by vm_compute| |lra].
    change (Qabs 0) with 0%Q. lra. }
  clear Hsum.
  pose proof (fl_error (sn / Py.len l)) as Hfl.
  set (n := Py.len l) in *. set (Σ := Py.sum l) in *.
  set (E := (2 * (u * ((1 + u) * M)) * n + u * M)%Q).
  assert (Qabs (sn - Σ) <= n * E)%Q as HD.
  { assert (sn - Σ == (sn - Py.sum (fl <$> l)) + (Py.sum (fl <$> l) - Σ))%Q
      as E1 by ring.
    rewrite E1. clear E1. revert H2 Hsn.
    generalize (sn - Py.sum (fl <$> l))%Q (Py.sum (fl <$> l) - Σ)%Q.
    intros a b. subst E.
    abs_cases (a + b)%Q; abs_cases a; abs_cases b; intros; nra. }
  assert (∀ a b, (Qabs a <= n * b)%Q → (Qabs (a / n) <= b)%Q) as Hdiv.
  { intros a b Hab. unfold Qdiv. rewrite Qabs_Qmult, Qabs_Qinv.
    rewrite (Qabs_pos n) by lra. apply Qle_shift_div_r; [done|]. lra. }
  assert (Qabs (sn / n - Σ / n) <= E)%Q as Hq.
  { assert (sn / n - Σ / n == (sn - Σ) / n)%Q as E1 by (field; lra).
    rewrite E1. by apply Hdiv. }
  assert (Qabs (Σ / n) <= M)%Q as Hm by by apply Hdiv.
  assert (0 <= E)%Q as HE0.
  { pose proof (Qabs_nonneg (sn / n - Σ / n)). lra. }
  assert (E <= (2 * n + 3) * (u * M))%Q as HE.
  { subst E. assert (0 <= u * M)%Q by nra. assert (2 * n * u <= 1)%Q by lra.
    assert (2 * n * u * (u * M) <= u * M)%Q by nra. lra. }
  assert (u * Qabs (sn / n) <= u * M + u * E)%Q as Hu.
  { assert (Qabs (sn / n) <= M + E)%Q as Habs.
    { revert Hq Hm. generalize (sn / n)%Q (Σ / n)%Q. intros a b.
      abs_cases (a - b)%Q; abs_cases a; abs_cases b; intros; lra. }
    revert Habs. generalize (Qabs (sn / n)). intros; nra. }
  assert (u * E <= 2 * (u * M))%Q as HuE.
  { assert ((2 * n + 3) * u <= 2)%Q.
    { assert (u <= 1)%Q by nra. lra. }
    assert (0 <= u * M)%Q by nra.
    assert (u * E <= u * ((2 * n + 3) * (u * M)))%Q by nra.
    assert ((2 * n + 3) * u * (u * M) <= 2 * (u * M))%Q by nra.
    lra. }
  assert (fl (sn / n) - Σ / n == (fl (sn / n) - sn / n) + (sn / n - Σ / n))%Q
    as E1 by ring.
  rewrite E1. clear E1. revert Hfl Hq Hu.
  generalize (Qabs (sn / n)) (fl (sn / n) - sn / n)%Q (sn / n - Σ / n)%Q.
  intros q a b.
  abs_cases (a + b)%Q; abs_cases a; abs_cases b; intros; lra.
Qed.

(** A rate [s / n * 100] with [0 <= s <= n] stays within [u]-many
    hundredths of [0, 100]. *)
Lemma rounded_rate_bounds (s n : Q) :
  (u <= 1 # 1000000)%Q → (0 <= s <= n)%Q → (0 < n)%Q →
  (- (1 # 200) < Rounded.rate fl s n < 100 + (1 # 200))%Q.
Proof.
  intros Hu Hs Hn. unfold Rounded.rate.
  assert (0 <= s / n <= 1)%Q as [Hq0 Hq1].
  { split; [apply Qle_shift_div_l|apply Qle_shift_div_r]; lra. }
  pose proof (fl_error (s / n)) as H1.
  pose proof (fl_error (fl (s / n) * 100)) as H2.
  revert Hq0 Hq1 H1 H2. generalize (s / n)%Q. intros q Hq0 Hq1 H1 H2.
  rewrite (Qabs_pos q) in H1 by done.
  assert (u * q <= u)%Q as Huq by nra.
  assert (0 <= u * q)%Q as Huq0 by nra.
  apply Qabs_Qle_condition in H1 as [H1 H1'].
  assert (0 <= fl q <= 1 + u)%Q as [Hf0 Hf1].
  { assert (u * q <= q)%Q by nra. lra. }
  rewrite (Qabs_pos (fl q * 100)) in H2 by lra.
  apply Qabs_Qle_condition in H2 as [H2 H2'].
  assert (u * (fl q * 100) <= 100 * u * (1 + u))%Q as Hb by nra.
  assert (0 <= u * (fl q * 100))%Q as Hb0 by nra.
  assert (u * (fl q * 100) <= fl q * 100)%Q as Hb1 by nra.
  assert (100 * u * (1 + u) <= 1 # 5000)%Q by nra.
  split; lra.
Qed.

End rounded_sum.

Lemma unit_roundoff_small :
  (0 <= Rounded.unit_roundoff)%Q ∧ (Rounded.unit_roundoff <= 1 # 1000000)%Q ∧
  (20000000000000 * Rounded.unit_roundoff < 1 # 200)%Q.
Proof. split_and!; by vm_compute. Qed.

(** With [n] latencies of at most [M] in absolute value and
    [(n + 3) M <= 10^13], the binary64 mean is within 0.005 of the exact
    mean. *)
Lemma rounded_mean_near fl l M :
  Rounded.rounding fl → l ≠ [] → (1 <= M)%Q →
  Forall (λ x, (Qabs x <= M)%Q) l →
  ((Py.len l + 3) * M <= 10000000000000)%Q →
  (Qabs (Rounded.mean fl (fl <$> l) - avg_response_time l) < 1 # 200)%Q.
Proof.
  intros Hfl Hne HM Hl Hsize.
  destruct unit_roundoff_small as (Hu0 & Hu1 & Hu2).
  pose proof (len_pos l Hne) as Hpos.
  assert ((2 * Py.len l + 2) * Rounded.unit_roundoff <= 1)%Q as Hn.
  { revert Hu0 Hu2. generalize Rounded.unit_roundoff. intros u Hu0 Hu2.
    assert (0 <= (Py.len l + 3) * (M - 1))%Q by (apply Qmult_le_0_compat; lra).
    assert (0 <= (20000000000000 - (2 * Py.len l + 2)) * u)%Q
      by (apply Qmult_le_0_compat; lra).
    lra. }
  pose proof (rounded_mean_error fl _ Hu0 Hfl l M Hne ltac:(lra) Hl Hn) as Herr.
  assert (avg_response_time l == Py.sum l / Py.len l)%Q as ->.
  { by destruct l. }
  eapply Qle_lt_trans; [apply Herr|].
  revert Hu0 Hu2. generalize Rounded.unit_roundoff. intros u Hu0 Hu2.
  assert (0 <= (20000000000000 - (2 * Py.len l + 6) * M) * u)%Q
    by (apply Qmult_le_0_compat; lra).
  lra.
Qed.

(** C5. For every non-empty collection of outcome records: the reported
    success rate lies in [0, 100]; the three latency statistics depend on
    the successful records only; with at least one successful record the
    reported average lies between the reported minimum and maximum; with
    no successful record all three are 0.

    The rate and the mean are exact in [analyze_results], where the
    source computes them in binary64. The two bounds are therefore proved
    as well (a) when the rate or the mean carries any error below 0.005
    before it is rounded to two decimals, and (b) for the rate and the
    mean computed with rounded operations on the rounded latencies, for
    every rounding [fl] of relative error at most [2^-53], when the [n]
    successful latencies are at most [M] in absolute value with
    [(n + 3) M <= 10^13]. The reported floats are the floats nearest to
    the two-decimal numbers compared here, in the same order. *)
Theorem latency_statistics (self : tester) (now : string) (w : world) :
  results w ≠ [] →
  Forall outcome_record (results w) →
  let successful := filter (λ r, success r = true) (results w) in
  let times := response_time_ms <$> successful in
  ∃ a, (analyze_results self now w).1 = Some a ∧
    (0 <= success_rate_percent a <= 100)%Q ∧
    (∀ w', results w' ≠ [] →
       filter (λ r, success r = true) (results w') = successful →
       ∃ a', (analyze_results self now w').1 = Some a' ∧
         avg_response_time_ms a' = avg_response_time_ms a ∧
         min_response_time_ms a' = min_response_time_ms a ∧
         max_response_time_ms a' = max_response_time_ms a) ∧
    (times ≠ [] →
       (min_response_time_ms a <= avg_response_time_ms a
        <= max_response_time_ms a)%Q) ∧
    (times = [] →
       (avg_response_time_ms a == 0)%Q ∧ (min_response_time_ms a == 0)%Q ∧
       (max_response_time_ms a == 0)%Q) ∧
    (∀ d : Q, (Qabs d < 1 # 200)%Q →
       (0 <= Py.round (success_rate (results w) + d) 2 <= 100)%Q ∧
       (times ≠ [] →
          (min_response_time_ms a <= Py.round (avg_response_time times + d) 2
           <= max_response_time_ms a)%Q)) ∧
    (∀ fl : Q → Q, Rounded.rounding fl →
       (0 <= Py.round (Rounded.rate fl (Py.len successful)
                         (Py.len (results w))) 2 <= 100)%Q ∧
       (∀ M : Q, (1 <= M)%Q →
          Forall (λ x, (Qabs x <= M)%Q) times →
          ((Py.len times + 3) * M <= 10000000000000)%Q →
          times ≠ [] →
          (min_response_time_ms a
           <= Py.round (Rounded.mean fl (fl <$> times)) 2
           <= max_response_time_ms a)%Q)).
Proof.
  intros Hne Hrec successful times.
  pose proof (outcome_records_decimals _ Hrec) as Hdec.
  fold successful in Hdec. fold times in Hdec.
  rewrite (analyze_results_nonempty _ _ _ Hne).
  eexists. split; [done|]. simpl. fold successful. fold times.
  pose proof (success_rate_bounds _ Hne) as [Hr0 Hr100].
  assert (∀ y, times ≠ [] →
            (Qabs (y - avg_response_time times) < 1 # 200)%Q →
            (min_response_time times <= Py.round y 2
             <= max_response_time times)%Q) as Hnear.
  { intros y Htimes Hy. destruct times as [|x l]; [done|].
    pose proof (avg_response_time_bounds x l) as [Hlo Hhi].
    destruct (min_spec x l) as [Hmin _]. destruct (max_spec x l) as [Hmax _].
    rewrite Forall_forall in Hdec.
    apply Qabs_Qlt_condition in Hy as [Hy1 Hy2].
    split; [apply round_ge_near|apply round_le_near]; auto; lra. }
  split_and!.
  - by apply (round_ge (inject_Z 0)); [apply decimals_Z|].
  - by apply (round_le (inject_Z 100)); [apply decimals_Z|].
  - intros w' Hne' Hsame.
    rewrite (analyze_results_nonempty _ _ _ Hne').
    eexists. split; [done|]. simpl. by rewrite Hsame.
  - intros Htimes. destruct times as [|x l]; [done|].
    by apply reported_avg_bounds.
  - intros ->. done.
  - intros d Hd. apply Qabs_Qlt_condition in Hd as [Hd1 Hd2]. split_and!.
    + apply (round_ge_near (inject_Z 0)); [apply (decimals_Z 2)|].
      change (inject_Z 0) with 0%Q. lra.
    + apply (round_le_near (inject_Z 100)); [apply (decimals_Z 2)|].
      change (inject_Z 100) with 100%Q. lra.
    + intros Htimes. apply Hnear; [done|].
      apply Qabs_Qlt_condition.
      split; [|]; lra.
  - intros fl Hfl. destruct unit_roundoff_small as (Hu0 & Hu1 & _).
    split.
    + destruct (rounded_rate_bounds fl _ Hu0 Hfl (Py.len successful)
                  (Py.len (results w)) Hu1) as [Hlo Hhi].
      { split; [apply len_nonneg|]. apply len_le, length_filter. }
      { by apply len_pos. }
      split.
      * apply (round_ge_near (inject_Z 0)); [apply (decimals_Z 2)|].
        change (inject_Z 0) with 0%Q. lra.
      * apply (round_le_near (inject_Z 100)); [apply (decimals_Z 2)|].
        change (inject_Z 100) with 100%Q. lra.
    + intros M HM Hbound Hsize Htimes. apply Hnear; [done|].
      by apply (rounded_mean_near fl times M).
Qed.

Lemma sample_outcome_records : Forall outcome_record [ok_record; timeout_record].
Proof.
  repeat constructor.
  - by exists (Tester "K" 3), "2025-06-01T12:00:00",
              (Response 0.12345 200 (Json (Some "OK") (Some 20%nat) None)), 1%Z.
  - by exists (Tester "K" 3), "2025-06-01T12:00:00",
              (TransportRaises "timed out"), 2%Z.
Qed.

(** The identity rounds without error. *)
Lemma exact_rounding : Rounded.rounding (λ x, x).
Proof.
  intros x. assert (x - x == 0)%Q as E by ring. rewrite E.
  change (Qabs 0) with 0%Q. pose proof (Qabs_nonneg x).
  destruct unit_roundoff_small as [Hu _].
  revert Hu. generalize Rounded.unit_roundoff. intros; nra.
Qed.

Lemma latency_statistics_witness :
  ∃ a, (analyze_results (Tester "K" 3) "now"
          (World [ok_record; timeout_record] [] [])).1 = Some a ∧
       (0 <= success_rate_percent a <= 100)%Q ∧
       (min_response_time_ms a <= avg_response_time_ms a
        <= max_response_time_ms a)%Q ∧
       (min_response_time_ms a
        <= Py.round (Rounded.mean (λ x, x) [123.45]) 2
        <= max_response_time_ms a)%Q.
Proof.
  destruct (latency_statistics (Tester "K" 3) "now"
              (World [ok_record; timeout_record] [] []))
    as (a & Ha & Hrate & _ & Hsome & _ & _ & Hfl);
    [done|apply sample_outcome_records|].
  destruct (Hfl (λ x, x) exact_rounding) as [_ Hmean].
  destruct (Hmean 200%Q) as [Hlo Hhi]; [by vm_compute| |by vm_compute|done|].
  { change (Forall (λ x, (Qabs x <= 200)%Q) [123.45%Q]).
    constructor; [by vm_compute|constructor]. }
  exists a.
  split_and!; [done|apply Hrate|apply Hrate|apply Hsome|apply Hsome|done|done];
    done.
Defined.

Ltac invert_fits H :=
  repeat (let Hm := fresh "Hm" in
          apply Forall2_cons_inv_r in H as ([] & ? & Hm & H & ->);
          simpl in Hm; destruct Hm as [? ?]);
  apply Forall2_nil_inv_r in H as ->; simpl in *; subst.

(** C2 (as amended). For every collection of ten records that fits the
    synthetic input (eight successes with latencies 100, 120, 90, 110,
    130, 95, 105, 115, a failure with error "Too Many Requests (429)" and
    a failure with error "Forbidden (403)"), the analyzer reports a
    success rate of 80.0, an average latency of 108.12 (the mean 108.125
    rounded to two decimals, ties to even), a minimum of 90, a maximum of
    130, the error histogram with one entry per error string, each
    counted once, [api_restrictions_detected = true] and
    [rate_limiting_detected = false]. *)
Theorem synthetic_report (self : tester) (now : string) (w : world) :
  Forall2 fits (results w) synthetic_outcomes →
  ∃ a, (analyze_results self now w).1 = Some a ∧
    total_requests a = 10%nat ∧
    (success_rate_percent a == 80)%Q ∧
    (avg_response_time_ms a == 108.12)%Q ∧
    (min_response_time_ms a == 90)%Q ∧
    (max_response_time_ms a == 130)%Q ∧
    error_analysis a
    = {[ Py.VStr "Too Many Requests (429)" := 1%nat;
         Py.VStr "Forbidden (403)" := 1%nat ]} ∧
    api_restrictions_detected a = true ∧
    rate_limiting_detected a = false.
Proof.
  destruct w as [rs c f]; simpl. intros H.
  unfold synthetic_outcomes in H. invert_fits H.
  eexists. split; [reflexivity|].
  split_and!; by vm_compute.
Qed.

Lemma synthetic_results_fit : Forall2 fits synthetic_results synthetic_outcomes.
Proof. by repeat constructor. Qed.

Lemma synthetic_report_witness :
  ∃ a, (analyze_results (Tester "K" 10) "now" (World synthetic_results [] [])).1
       = Some a ∧
       (success_rate_percent a == 80)%Q ∧ (avg_response_time_ms a == 108.12)%Q.
Proof.
  destruct (synthetic_report (Tester "K" 10) "now" (World synthetic_results [] []))
    as (a & Ha & _ & Hrate & Havg & _); [by repeat constructor|].
  by exists a.
Defined.

(** C2 fails as stated: on the synthetic input the reported average is
    not 108.125. *)
Lemma synthetic_report_counterexample :
  Forall2 fits synthetic_results synthetic_outcomes ∧
  ∃ a, (analyze_results (Tester "K" 10) "now" (World synthetic_results [] [])).1
       = Some a ∧
       (avg_response_time_ms a == 108.12)%Q ∧
       ¬ (avg_response_time_ms a == 108.125)%Q.
Proof.
  split; [by repeat constructor|].
  eexists. split; [reflexivity|]. split; by vm_compute.
Qed.

Lemma append_cons c s t : (String c s ++ t)%string = String c (s ++ t)%string.
Proof. reflexivity. Qed.

Lemma prefix_spec n h :
  String.prefix n h = true ↔ ∃ post, h = (n ++ post)%string.
Proof.
  revert h. induction n as [|c n IH]; intros h.
  - split; [by exists h|by destruct h].
  - destruct h as [|c' h]; simpl.
    + split; [done|]. by intros [post ?].
    + destruct (Ascii.ascii_dec c c') as [->|Hne].
      * rewrite IH.
        split; intros [post Hpost]; exists post; rewrite append_cons in *; congruence.
      * split; [done|]. intros [post ?]. rewrite append_cons in *. congruence.
Qed.

Lemma contains_spec n h : Py.contains n h = true ↔ occurs_in n h.
Proof.
  unfold occurs_in. induction h as [|c h IH]; cbn [Py.contains].
  - rewrite orb_false_r, prefix_spec. split.
    + intros [post ->]. by exists ""%string, post.
    + intros (pre & post & H). destruct pre; [by exists post|done].
  - rewrite orb_true_iff, prefix_spec, IH. split.
    + intros [[post ->] | (pre & post & ->)].
      * by exists ""%string, post.
      * by exists (String c pre), post.
    + intros (pre & post & H). destruct pre as [|c' pre].
      * left. by exists post.
      * right. exists pre, post. rewrite append_cons in H. congruence.
Qed.

Lemma any_filter {A} (p : A → bool) (P : A → Prop) `{∀ x, Decision (P x)} l :
  Py.any p (filter P l) = true ↔ ∃ x, x ∈ l ∧ P x ∧ p x = true.
Proof.
  unfold Py.any. rewrite existsb_exists. split.
  - intros (x & Hin & Hp). apply list_elem_of_In, list_elem_of_filter in Hin.
    exists x. tauto.
  - intros (x & Hin & HP & Hp). exists x. split; [|done].
    apply list_elem_of_In, list_elem_of_filter. tauto.
Qed.

Lemma any_elem_of {A} (p : A → bool) l :
  Py.any p l = true ↔ ∃ x, x ∈ l ∧ p x = true.
Proof.
  unfold Py.any. rewrite existsb_exists.
  split; intros (x & Hin & Hp); exists x; by rewrite list_elem_of_In in *.
Qed.

Lemma mentions_rate_limit_spec r :
  mentions_rate_limit r = true ↔
  ∃ s, error r = Some (Py.VStr s) ∧ occurs_in "rate limit" (Py.lower s).
Proof.
  unfold mentions_rate_limit. rewrite contains_spec.
  destruct (error r) as [[|s]|]; simpl.
  - rewrite <- contains_spec. split; [done|]. by intros (s & ? & _).
  - split; [by exists s|]. by intros (s' & [= ->] & ?).
  - rewrite <- contains_spec. split; [done|]. by intros (s & ? & _).
Qed.

Lemma mentions_403_spec r :
  mentions_403 r = true ↔
  ∃ s, error r = Some (Py.VStr s) ∧ occurs_in "403" s.
Proof.
  unfold mentions_403. rewrite contains_spec.
  destruct (error r) as [[|s]|]; simpl.
  - rewrite <- contains_spec. split; [done|]. by intros (s & ? & _).
  - split; [by exists s|]. by intros (s' & [= ->] & ?).
  - rewrite <- contains_spec. split; [done|]. by intros (s & ? & _).
Qed.

Lemma mentions_over_query_limit_spec r :
  mentions_over_query_limit r = true ↔
  ∃ label, api_status r = Some label ∧ occurs_in "OVER_QUERY_LIMIT" label.
Proof.
  unfold mentions_over_query_limit. rewrite contains_spec.
  destruct (api_status r) as [label|]; simpl.
  - split; [by exists label|]. by intros (s' & [= ->] & ?).
  - rewrite <- contains_spec. split; [done|]. by intros (s & ? & _).
Qed.

Lemma full_functionality_spec rs :
  rs ≠ [] →
  negb (Qle_bool (success_rate rs) 90) = true ↔
  (9 * length rs < 10 * length (filter (λ r, success r = true) rs))%nat.
Proof.
  intros Hne. rewrite negb_true_iff, <- not_true_iff_false, Qle_bool_iff.
  unfold success_rate. set (s := filter _ rs).
  pose proof (len_pos rs Hne) as Hpos.
  assert (Py.len s / Py.len rs * 100 * Py.len rs == 100 * Py.len s)%Q as Hq.
  { field. lra. }
  rewrite <- (Qmult_le_r _ _ (Py.len rs) Hpos), Hq.
  unfold Py.len.
  change 100%Q with (inject_Z 100). change 90%Q with (inject_Z 90).
  rewrite <- !inject_Z_mult, <- Zle_Qle. lia.
Qed.

(** C6 (as amended). For a non-empty collection:
    [rate_limiting_detected] holds iff some failed record has an error
    string that contains "rate limit" once lowered;
    [api_restrictions_detected] holds iff some failed record has an error
    string that contains "403"; [quota_exceeded] holds iff some record has
    a status label that contains "OVER_QUERY_LIMIT" (as a substring: the
    label need not be equal to it); [full_functionality] holds iff the
    success rate before rounding exceeds 90, that is iff more than nine
    records in ten succeeded. *)
Theorem security_flags (self : tester) (now : string) (w : world) :
  results w ≠ [] →
  ∃ a, (analyze_results self now w).1 = Some a ∧
    (rate_limiting_detected a = true ↔
     ∃ r s, r ∈ results w ∧ success r = false ∧
            error r = Some (Py.VStr s) ∧ occurs_in "rate limit" (Py.lower s)) ∧
    (api_restrictions_detected a = true ↔
     ∃ r s, r ∈ results w ∧ success r = false ∧
            error r = Some (Py.VStr s) ∧ occurs_in "403" s) ∧
    (quota_exceeded a = true ↔
     ∃ r label, r ∈ results w ∧ api_status r = Some label ∧
                occurs_in "OVER_QUERY_LIMIT" label) ∧
    (full_functionality a = true ↔
     (9 * total_requests a < 10 * successful_requests a)%nat) ∧
    (full_functionality a = true ↔ (90 < success_rate (results w))%Q).
Proof.
  intros Hne. rewrite (analyze_results_nonempty _ _ _ Hne).
  eexists. split; [done|]. simpl. split_and!.
  - rewrite any_filter. setoid_rewrite mentions_rate_limit_spec. split.
    + intros (r & ? & ? & s & ? & ?). by exists r, s.
    + intros (r & s & ? & ? & ? & ?). exists r. split_and!; [done..|]. by exists s.
  - rewrite any_filter. setoid_rewrite mentions_403_spec. split.
    + intros (r & ? & ? & s & ? & ?). by exists r, s.
    + intros (r & s & ? & ? & ? & ?). exists r. split_and!; [done..|]. by exists s.
  - rewrite any_elem_of. setoid_rewrite mentions_over_query_limit_spec. split.
    + intros (r & ? & s & ? & ?). by exists r, s.
    + intros (r & s & ? & ? & ?). exists r. split; [done|]. by exists s.
  - by apply full_functionality_spec.
  - rewrite negb_true_iff, <- not_true_iff_false, Qle_bool_iff.
    split; [apply Qnot_le_lt|apply Qlt_not_le].
Qed.

Lemma security_flags_witness :
  ∃ a, (analyze_results (Tester "K" 1) "now" (World [quota_like_record] [] [])).1 = Some a ∧
       quota_exceeded a = true.
Proof.
  destruct (security_flags (Tester "K" 1) "now" (World [quota_like_record] [] []))
    as (a & Ha & _ & _ & Hq & _); [done|].
  exists a. split; [done|]. apply Hq.
  exists quota_like_record, "OVER_QUERY_LIMIT_DAILY".
  split_and!; [by left|done|]. by exists "", "_DAILY".
Defined.

(** C6 fails as stated: a record with the label OVER_QUERY_LIMIT_DAILY
    sets [quota_exceeded], and no record has the label OVER_QUERY_LIMIT. *)
Lemma security_flags_counterexample :
  ∃ a, (analyze_results (Tester "K" 1) "now" (World [quota_like_record] [] [])).1 = Some a ∧
       quota_exceeded a = true ∧
       ¬ ∃ r, r ∈ [quota_like_record] ∧ api_status r = Some "OVER_QUERY_LIMIT".
Proof.
  eexists. split; [reflexivity|]. split; [reflexivity|].
  intros (r & ->%list_elem_of_singleton & H). discriminate H.
Qed.

(** ** Histograms *)

Lemma incr_lookup `{Countable K} (k k' : K) (d : gmap K nat) :
  Py.incr k d !! k'
  = if decide (k = k') then Some (S (default 0%nat (d !! k'))) else d !! k'.
Proof.
  unfold Py.incr. case_decide as Hk.
  - subst. by rewrite lookup_insert_eq.
  - by rewrite lookup_insert_ne.
Qed.

Lemma tally_lookup {A} `{Countable K} (f : A → K) (l : list A)
    (d : gmap K nat) (k : K) :
  fold_left (λ d r, Py.incr (f r) d) l d !! k
  = match length (filter (λ r, f r = k) l) with
    | O => d !! k
    | S c => Some (default 0%nat (d !! k) + S c)%nat
    end.
Proof.
  revert d. induction l as [|x l IH]; intros d; [done|].
  simpl. rewrite IH, incr_lookup, filter_cons.
  destruct (decide (f x = k)) as [Hk|Hk]; [|done].
  simpl. destruct (length (filter _ l)); f_equal; lia.
Qed.

Lemma error_counts_lookup failed k :
  error_counts failed !! k
  = match length (filter (λ r, error_type r = k) failed) with
    | O => None
    | S c => Some (S c)
    end.
Proof. unfold error_counts. rewrite tally_lookup. by destruct (length _). Qed.

Lemma unrecognised_label_outcome p now wid elapsed status n em :
  default "UNKNOWN" status
    ∉ ["OK"; "REQUEST_DENIED"; "INVALID_REQUEST"; "OVER_QUERY_LIMIT"] →
  request_outcome p now wid elapsed 200 (Json status n em)
  = Ok (Outcome wid (p_query p) now (Py.round (elapsed * 1000) 2) 200 false
          (Some 0%nat) (Some (default "UNKNOWN" status)) (Some Py.VNone)).
Proof.
  intros Hlabel. unfold request_outcome. simpl.
  set (label := default "UNKNOWN" status) in *.
  assert (∀ s, s ∈ ["OK"; "REQUEST_DENIED"; "INVALID_REQUEST"; "OVER_QUERY_LIMIT"] →
               String.eqb label s = false) as Hneq.
  { intros s Hs. apply String.eqb_neq. intros ->. done. }
  rewrite !Hneq by (repeat constructor). done.
Qed.

(** C10. A 200 response whose status label (UNKNOWN when the body has
    none) is none of OK, REQUEST_DENIED, INVALID_REQUEST and
    OVER_QUERY_LIMIT yields, under both strategies, a record with
    [success = false] and the error [None]. Adding such a record to a
    collection adds one to the failed count, none to the successful count,
    one to the entry of the key [None] in the error histogram, and leaves
    the entry of every error string as it was. *)
Theorem unrecognised_label_recorded (self : tester) (now : string) (wid : Z)
    (elapsed : Q) (status : option string) (n : option nat)
    (em : option Py.value) :
  let label := default "UNKNOWN" status in
  label ∉ ["OK"; "REQUEST_DENIED"; "INVALID_REQUEST"; "OVER_QUERY_LIMIT"] →
  ∃ r,
    single_api_call_async self now (Response elapsed 200 (Json status n em)) wid
    = Ok r ∧
    (∀ w, single_api_call self now (Response elapsed 200 (Json status n em)) wid w
          = (Ok r, append_result r w)) ∧
    success r = false ∧ error r = Some Py.VNone ∧ api_status r = Some label ∧
    ∀ self' now' pre post,
      let a0 := build_analysis self' now' (pre ++ post) in
      let a := build_analysis self' now' (pre ++ r :: post) in
      failed_requests a = S (failed_requests a0) ∧
      successful_requests a = successful_requests a0 ∧
      error_analysis a !! Py.VNone
      = Some (S (default 0%nat (error_analysis a0 !! Py.VNone))) ∧
      ∀ s, error_analysis a !! Py.VStr s = error_analysis a0 !! Py.VStr s.
Proof.
  intros label Hlabel.
  destruct (create_request_params_ok self wid) as (q & _ & Hp).
  eexists. split_and!.
  - unfold single_api_call_async. rewrite Hp.
    by rewrite unrecognised_label_outcome.
  - intros w. unfold single_api_call. rewrite Hp.
    by rewrite unrecognised_label_outcome.
  - done.
  - done.
  - done.
  - intros self' now' pre post. simpl.
    rewrite !filter_app, !filter_cons. simpl.
    rewrite !length_app. simpl. split_and!; [lia|done|..].
    + rewrite !error_counts_lookup, !filter_app, !filter_cons. simpl.
      rewrite !length_app. simpl.
      rewrite Nat.add_succ_r.
      by destruct (_ + _)%nat.
    + intros s. rewrite !error_counts_lookup, !filter_app, !filter_cons. done.
Qed.

Lemma unrecognised_label_recorded_witness :
  ∃ r, single_api_call_async (Tester "K" 3) "now"
         (Response 0.12345 200 (Json (Some "ZERO_RESULTS") (Some 0%nat) None)) 1
       = Ok r ∧ error r = Some Py.VNone.
Proof.
  destruct (unrecognised_label_recorded (Tester "K" 3) "now" 1 0.12345
              (Some "ZERO_RESULTS") (Some 0%nat) None)
    as (r & Hr & _ & _ & He & _).
  - simpl. intros H.
    repeat (apply elem_of_cons in H as [H|H]; [discriminate H|]).
    by apply elem_of_nil in H.
  - by exists r.
Defined.

(** ** The analyzer is a function of the collection *)

(** C9. The report is a function of the tester and of the collection:
    two runs of the analyzer on the same collection at the same clock
    reading return the same report, whatever was printed before, and at
    different clock readings the reports differ in the time stamp at
    most: all aggregate numbers are the same terms. *)
Theorem analyzer_is_pure (self : tester) (now1 now2 : string) (w1 w2 : world) :
  results w1 = results w2 →
  (analyze_results self now1 w1).1 = (analyze_results self now1 w2).1 ∧
  aggregate_numbers <$> (analyze_results self now1 w1).1
  = aggregate_numbers <$> (analyze_results self now2 w2).1.
Proof.
  intros H. unfold analyze_results. rewrite H.
  by destruct (results w2).
Qed.

Lemma analyzer_is_pure_witness :
  aggregate_numbers <$>
    (analyze_results (Tester "K" 1) "12:00" (World [off_grid_record] [] [])).1
  = aggregate_numbers <$>
    (analyze_results (Tester "K" 1) "12:05"
       (World [off_grid_record] [Say "again"] [])).1.
Proof.
  apply (analyzer_is_pure (Tester "K" 1) "12:00" "12:05"
           (World [off_grid_record] [] [])
           (World [off_grid_record] [Say "again"] [])).
  reflexivity.
Defined.

(** ** Empty collection *)

Lemma analyze_results_some self now w a :
  (analyze_results self now w).1 = Some a → results w ≠ [].
Proof. unfold analyze_results. by destruct (results w). Qed.

Lemma save_detailed_report_results self stamp a w :
  results (save_detailed_report self stamp a w).2 = results w.
Proof. done. Qed.

(** Dispatch writes no file. *)
Lemma pool_run_files self e sched fuel p :
  files (pool_world (pool_run self e sched fuel p)) = files (pool_world p).
Proof. apply pool_rtc_files with self e. apply pool_run_rtc. Qed.

Lemma run_parallel_sync_files self e sched w :
  files (run_parallel_sync self e sched w).2 = files w ∧
  ∀ a, (run_parallel_sync self e sched w).1 = Ok (Some a) →
       results (run_parallel_sync self e sched w).2 ≠ [].
Proof.
  unfold run_parallel_sync.
  destruct (num_workers self <=? 0)%Z; [done|].
  set (w1 := print TimingLines _).
  pose proof (analyze_results_world self (analysis_time e) w1) as [Hr Hf].
  pose proof (analyze_results_some self (analysis_time e) w1) as Hs.
  destruct (analyze_results self (analysis_time e) w1) as [a w2]. simpl in *.
  split.
  - rewrite Hf. subst w1. simpl. by rewrite pool_run_files.
  - intros a' [= ->]. rewrite Hr. by eapply Hs.
Qed.

Lemma run_parallel_async_files self e w :
  files (run_parallel_async self e w).2 = files w ∧
  ∀ a, (run_parallel_async self e w).1 = Ok (Some a) →
       results (run_parallel_async self e w).2 ≠ [].
Proof.
  unfold run_parallel_async.
  set (w1 := print TimingLines _).
  pose proof (analyze_results_world self (analysis_time e) w1) as [Hr Hf].
  pose proof (analyze_results_some self (analysis_time e) w1) as Hs.
  destruct (analyze_results self (analysis_time e) w1) as [a w2]. simpl in *.
  split.
  - rewrite Hf. subst w1. simpl. by rewrite process_results_files.
  - intros a' [= ->]. rewrite Hr. by eapply Hs.
Qed.

(** C7. On an empty collection [analyze_results] prints the
    no-results message and returns [None], no report; and a run of
    [main] that ends with an empty collection has written no report
    file. *)
Theorem empty_collection_no_report :
  (∀ self now w,
     results w = [] →
     analyze_results self now w = (None, print (Say no_results_message) w)) ∧
  (∀ key a e sched,
     results (main key a e sched).1 = [] → files (main key a e sched).1 = []).
Proof.
  split; [apply analyze_results_empty|].
  intros key a e sched. unfold main.
  set (w0 := print _ init_world). set (t := Tester key _).
  assert (∀ run : res (option analysis) * world,
            files run.2 = files w0 →
            (∀ an, run.1 = Ok (Some an) → results run.2 ≠ []) →
            results (let '(r, w) := run in
                     match r with
                     | Raise exn => on_exception exn w
                     | Ok None => (w, 0%Z)
                     | Ok (Some an) =>
                         ((save_detailed_report t (report_stamp e) an w).2, 0%Z)
                     end).1 = [] →
            files (let '(r, w) := run in
                   match r with
                   | Raise exn => on_exception exn w
                   | Ok None => (w, 0%Z)
                   | Ok (Some an) =>
                       ((save_detailed_report t (report_stamp e) an w).2, 0%Z)
                   end).1 = []) as Hcase.
  { intros [[[an|]|exn] w] Hf Hs; simpl in *; try done.
    intros Hnil. by destruct (Hs an). }
  destruct (arg_async_mode a).
  - apply Hcase; apply run_parallel_async_files.
  - apply Hcase; apply run_parallel_sync_files.
Qed.

Lemma empty_collection_no_report_witness :
  files (main "K" (Args 0 true) sample_env round_robin).1 = [].
Proof.
  apply (proj2 empty_collection_no_report). reflexivity.
Defined.

(** ** Interrupted run *)

Lemma filter_success_length rs :
  (length (filter (λ r, success r = true) rs)
   + length (filter (λ r, success r = false) rs))%nat = length rs.
Proof.
  induction rs as [|r rs IH]; [done|].
  rewrite !filter_cons. destruct (success r); simpl; lia.
Qed.

Lemma advance_console self e t w :
  Forall dispatch_line (console w) →
  Forall dispatch_line (console (advance self e t w).2).
Proof.
  intros H. destruct t as [i|[r|exn]].
  - by destruct (advance_queued self e i w) as (r & -> & _).
  - simpl. apply Forall_app. split; [done|]. by repeat constructor.
  - done.
Qed.

Lemma pool_rtc_console self e p p' :
  rtc (pool_step self e) p p' →
  Forall dispatch_line (console (pool_world p)) →
  Forall dispatch_line (console (pool_world p')).
Proof.
  induction 1 as [|p1 p2 p3 Hstep _ IH]; [done|].
  intros H. apply IH. destruct Hstep. by apply advance_console.
Qed.

Lemma process_results_console l w :
  Forall dispatch_line (console w) →
  Forall dispatch_line (console (fold_left process_result l w)).
Proof.
  revert w. induction l as [|r l IH]; intros w H; simpl; [done|].
  apply IH. destruct r; simpl; apply Forall_app; (split; [done|]); by repeat constructor.
Qed.

Lemma dispatch_line_quiet c :
  Forall dispatch_line c →
  existsb is_report c = false ∧ existsb is_no_results_signal c = false.
Proof.
  induction 1 as [|ev c Hev _ [IH1 IH2]]; [done|].
  simpl. rewrite IH1, IH2. by destruct ev.
Qed.

Lemma owed_queued self e (l : list Z) :
  owed self e ((λ i, Queued (i + 1)) <$> l)
  = (λ i, single_api_call_async self (isoformat_now e (i + 1))
            (transport e (i + 1)) (i + 1)) <$> l.
Proof. induction l as [|i l IH]; [done|]. csimpl. by f_equal. Qed.

Lemma queued_work (l : list Z) :
  work ((λ i, Queued (i + 1)) <$> l) = (2 * length l)%nat.
Proof.
  induction l as [|i l IH]; [done|].
  rewrite fmap_cons. unfold work in *. simpl in *. lia.
Qed.

(** The pool of the first [k] submitted tasks settles within [2 * k]
    moves and then holds the records of these tasks. *)
Lemma interrupted_pool_settled self e sched k w :
  Ok <$> results (pool_world (pool_run self e sched (2 * k)
                    (Pool (take k (submitted self)) w)))
  ≡ₚ (Ok <$> results w) ++ take k (gather self e).
Proof.
  set (p := pool_run self e sched (2 * k) _).
  assert (pending p = []) as Hdone.
  { apply pool_run_settles. simpl. unfold submitted.
    rewrite <- fmap_take, queued_work, length_take. lia. }
  pose proof (pool_rtc_records self e _ p (pool_run_rtc _ _ _ _ _)) as Hrec.
  rewrite Hdone in Hrec. simpl in Hrec. rewrite app_nil_r in Hrec.
  rewrite Hrec. unfold submitted, gather.
  by rewrite <- !fmap_take, owed_queued.
Qed.


(** * Further properties of the code *)

(** ** Request builder: which workers share a query *)

Lemma test_queries_NoDup : NoDup test_queries.
Proof. apply (bool_decide_unpack (NoDup test_queries)). by vm_compute. Qed.

Lemma create_request_params_query self i p :
  create_request_params self i = Ok p →
  test_queries !! Z.to_nat (i mod 10) = Some (p_query p) ∧
  p = Params (p_query p) (api_key self) "-33.4489,-70.6693" 50000 "es".
Proof.
  destruct (create_request_params_ok self i) as (q & Hq & ->).
  by intros [= <-].
Qed.

(** X1. Two workers are given the same parameters exactly when their
    indices are congruent modulo 10: the ten queries are distinct and are
    used in turn. *)
Theorem same_query_iff_congruent (self : tester) (i j : Z) :
  (∃ p, create_request_params self i = Ok p ∧
        create_request_params self j = Ok p)
  ↔ (i mod 10 = j mod 10)%Z.
Proof.
  destruct (create_request_params_ok self i) as (qi & Hqi & Hi).
  destruct (create_request_params_ok self j) as (qj & Hqj & Hj).
  pose proof (Z.mod_pos_bound i 10 eq_refl).
  pose proof (Z.mod_pos_bound j 10 eq_refl).
  split.
  - intros (p & Hpi & Hpj). rewrite Hi in Hpi. rewrite Hj in Hpj.
    assert (qi = qj) as -> by congruence.
    pose proof (NoDup_lookup _ _ _ _ test_queries_NoDup Hqi Hqj). lia.
  - intros Heq. rewrite Heq in Hqi. assert (qi = qj) as -> by congruence.
    eexists. by rewrite Hi, Hj.
Qed.

(** X2. Among any ten consecutive worker indices every query of the
    list is used. *)
Theorem ten_workers_use_every_query (self : tester) (start : Z) (q : string) :
  q ∈ test_queries →
  ∃ i p, (start ≤ i < start + 10)%Z ∧
         create_request_params self i = Ok p ∧ p_query p = q.
Proof.
  intros Hq. apply list_elem_of_lookup in Hq as [k Hk].
  pose proof (lookup_lt_Some _ _ _ Hk) as Hlt. rewrite test_queries_length in Hlt.
  set (i := (start + (Z.of_nat k - start) mod 10)%Z).
  pose proof (Z.mod_pos_bound (Z.of_nat k - start) 10 eq_refl).
  destruct (create_request_params_ok self i) as (q' & Hq' & Hi).
  assert (i mod 10 = Z.of_nat k)%Z as Hmod.
  { subst i. rewrite Zplus_mod_idemp_r.
    replace (start + (Z.of_nat k - start))%Z with (Z.of_nat k) by lia.
    apply Z.mod_small. lia. }
  rewrite Hmod, Nat2Z.id, Hk in Hq'. injection Hq' as <-.
  exists i. eexists. split; [subst i; lia|]. by rewrite Hi.
Qed.

Lemma ten_workers_use_every_query_witness :
  ∃ i p, (95 ≤ i < 95 + 10)%Z ∧
         create_request_params (Tester "K" 100) i = Ok p ∧
         p_query p = "gas station".
Proof.
  apply (ten_workers_use_every_query (Tester "K" 100) 95 "gas station").
  unfold test_queries. do 6 right. left.
Defined.

(** ** Per-request operation: the shape of a record *)

Lemma request_outcome_shape p now i elapsed code b r :
  request_outcome p now i elapsed code b = Ok r →
  (success r = true ↔ status_code r = 200%Z ∧ api_status r = Some "OK") ∧
  (success r = true → error r = Some Py.VNone) ∧
  is_Some (results_count r) ∧ is_Some (api_status r) ∧ is_Some (error r).
Proof.
  unfold request_outcome. intros H.
  destruct (code =? 200)%Z eqn:Hcode.
  - apply Z.eqb_eq in Hcode as ->.
    destruct b as [|status n em|e]; [| |done].
    + simplify_eq. simpl. split_and!; try done. split; [done|]. by intros [_ [=]].
    + destruct (String.eqb (default "UNKNOWN" status) "OK") eqn:Hok.
      * apply String.eqb_eq in Hok. simplify_eq. simpl. rewrite Hok.
        by split_and!.
      * apply String.eqb_neq in Hok.
        repeat case_match; simplify_eq; simpl; split_and!; try done;
          (split; [done|]); intros [_ [=]]; done.
  - apply Z.eqb_neq in Hcode.
    repeat case_match; simplify_eq; simpl; split_and!; try done;
      (split; [done|]); by intros [? _].
Qed.

(** X3. The shape of every record, whatever the transport does, under
    both strategies: it carries the worker index and an ['error'] entry;
    it is successful exactly when the transport status is 200 and the
    status label is OK, and then its error is [None] and it has a result
    count; it lacks the ['api_status'] key exactly when it lacks the
    ['results_count'] key, and then it is a failed record of the [except]
    branch, with status code 0, latency 0 and an error string. *)
Theorem outcome_shape (self : tester) (now : string) (rp : reply) (i : Z)
    (w : world) :
  ∃ r,
    single_api_call self now rp i w = (Ok r, append_result r w) ∧
    single_api_call_async self now rp i = Ok r ∧
    worker_id r = i ∧ timestamp r = now ∧ is_Some (error r) ∧
    (success r = true ↔ status_code r = 200%Z ∧ api_status r = Some "OK") ∧
    (success r = true → error r = Some Py.VNone ∧ is_Some (results_count r)) ∧
    (api_status r = None ↔ results_count r = None) ∧
    (api_status r = None →
       success r = false ∧ status_code r = 0%Z ∧ response_time_ms r = 0%Q ∧
       ∃ e, error r = Some (Py.VStr e)).
Proof.
  unfold single_api_call, single_api_call_async.
  destruct (create_request_params_ok self i) as (q & _ & ->).
  assert (∀ e, let r := error_result
                 (Params q (api_key self) "-33.4489,-70.6693" 50000 "es") now i e in
            worker_id r = i ∧ timestamp r = now ∧ is_Some (error r) ∧
            (success r = true ↔ status_code r = 200%Z ∧ api_status r = Some "OK") ∧
            (success r = true → error r = Some Py.VNone ∧ is_Some (results_count r)) ∧
            (api_status r = None ↔ results_count r = None) ∧
            (api_status r = None →
               success r = false ∧ status_code r = 0%Z ∧ response_time_ms r = 0%Q ∧
               ∃ e, error r = Some (Py.VStr e))) as Herr.
  { intros e. simpl. split_and!; try done.
    - split; [done|]. by intros [? ?].
    - intros _. split_and!; try done. by exists e. }
  destruct rp as [e | elapsed code b].
  - eexists. split; [done|]. split; [done|]. apply Herr.
  - destruct (request_outcome _ now i elapsed code b) as [r|e] eqn:E.
    + exists r. split; [done|]. split; [done|].
      pose proof (request_outcome_fields _ _ _ _ _ _ _ E) as (? & _ & ? & _).
      pose proof (request_outcome_shape _ _ _ _ _ _ _ E)
        as (? & ? & [rc Hrc] & [st Hst] & ?).
      split_and!; try done.
      * intros Hs. split; [auto|by exists rc].
      * by rewrite Hrc, Hst.
      * by rewrite Hst.
    + eexists. split; [done|]. split; [done|]. apply Herr.
Qed.

(** ** Rounding *)

(** Rounding a number that has [n] decimals changes nothing. *)
Lemma round_id x n : decimals n x → (Py.round x n == x)%Q.
Proof.
  intros H. apply Qle_antisym.
  - apply round_le; [done|]. apply Qle_refl.
  - apply round_ge; [done|]. apply Qle_refl.
Qed.

(** ** From a response to the security flags *)

Lemma any_true_elem {A} (p : A → bool) (P : A → Prop)
    `{∀ x, Decision (P x)} (x : A) (l : list A) :
  x ∈ l → P x → p x = true → Py.any p (filter P l) = true.
Proof. intros. apply any_filter. by exists x. Qed.

(** X4. A 403 response sets [api_restrictions_detected] in every report over
    a collection that holds its record. *)
Theorem forbidden_response_flagged (self : tester) (now : string)
    (elapsed : Q) (b : body) (i : Z) :
  ∃ r,
    single_api_call_async self now (Response elapsed 403 b) i = Ok r ∧
    success r = false ∧ error r = Some (Py.VStr "Forbidden (403)") ∧
    ∀ self' now' rs,
      r ∈ rs → api_restrictions_detected (build_analysis self' now' rs) = true.
Proof.
  unfold single_api_call_async.
  destruct (create_request_params_ok self i) as (q & _ & ->).
  eexists. split; [done|]. split; [done|]. split; [done|].
  intros self' now' rs Hin. simpl.
  by eapply any_true_elem.
Qed.

(** X5. An OVER_QUERY_LIMIT response sets both [rate_limiting_detected] and
    [quota_exceeded]. *)
Theorem quota_response_flagged (self : tester) (now : string)
    (elapsed : Q) (n : option nat) (em : option Py.value) (i : Z) :
  ∃ r,
    single_api_call_async self now
      (Response elapsed 200 (Json (Some "OVER_QUERY_LIMIT") n em)) i = Ok r ∧
    success r = false ∧ error r = Some (Py.VStr "Rate limit exceeded") ∧
    ∀ self' now' rs,
      r ∈ rs →
      rate_limiting_detected (build_analysis self' now' rs) = true ∧
      quota_exceeded (build_analysis self' now' rs) = true.
Proof.
  unfold single_api_call_async.
  destruct (create_request_params_ok self i) as (q & _ & ->).
  eexists. split; [done|]. split; [done|]. split; [done|].
  intros self' now' rs Hin. simpl. split.
  - by eapply any_true_elem.
  - apply any_elem_of. by eexists.
Qed.

(** X6. The record of a 429 response does not mention rate limiting: a
    collection of 429 responses leaves [rate_limiting_detected],
    [api_restrictions_detected] and [quota_exceeded] unset, and counts
    all its records under the one error string. *)
Theorem too_many_requests_not_flagged (self : tester) (now' : string)
    (rs : list outcome) :
  Forall (λ r, ∃ self now elapsed b i,
            single_api_call_async self now (Response elapsed 429 b) i = Ok r) rs →
  rate_limiting_detected (build_analysis self now' rs) = false ∧
  api_restrictions_detected (build_analysis self now' rs) = false ∧
  quota_exceeded (build_analysis self now' rs) = false ∧
  error_analysis (build_analysis self now' rs) !! Py.VStr "Too Many Requests (429)"
  = match rs with [] => None | _ => Some (length rs) end.
Proof.
  intros Hall.
  assert (Forall (λ r, success r = false ∧
                       error r = Some (Py.VStr "Too Many Requests (429)") ∧
                       api_status r = Some "UNKNOWN") rs) as Hshape.
  { eapply Forall_impl; [exact Hall|].
    intros r (self0 & now & elapsed & b & i & Hr).
    unfold single_api_call_async in Hr.
    destruct (create_request_params_ok self0 i) as (q & _ & Hp).
    rewrite Hp in Hr. simpl in Hr. injection Hr as <-. done. }
  clear Hall. simpl. split_and!.
  - apply not_true_iff_false. rewrite any_filter.
    intros (r & Hin & _ & Hm). rewrite Forall_forall in Hshape.
    destruct (Hshape r Hin) as (_ & He & _).
    unfold mentions_rate_limit in Hm. by rewrite He in Hm.
  - apply not_true_iff_false. rewrite any_filter.
    intros (r & Hin & _ & Hm). rewrite Forall_forall in Hshape.
    destruct (Hshape r Hin) as (_ & He & _).
    unfold mentions_403 in Hm. by rewrite He in Hm.
  - apply not_true_iff_false. rewrite any_elem_of.
    intros (r & Hin & Hm). rewrite Forall_forall in Hshape.
    destruct (Hshape r Hin) as (_ & _ & Hs).
    unfold mentions_over_query_limit in Hm. by rewrite Hs in Hm.
  - rewrite error_counts_lookup.
    assert (filter (λ r, error_type r = Py.VStr "Too Many Requests (429)")
              (filter (λ r, success r = false) rs) = rs) as ->.
    { induction Hshape as [|r rs' (Hs & He & _) _ IH]; [done|].
      rewrite filter_cons, decide_True by done.
      rewrite filter_cons, decide_True by (unfold error_type; by rewrite He).
      by rewrite IH. }
    by destruct rs.
Qed.

Lemma too_many_requests_not_flagged_witness :
  rate_limiting_detected (build_analysis (Tester "K" 1) "now" [too_many_record])
  = false.
Proof.
  apply (too_many_requests_not_flagged (Tester "K" 1) "now" [too_many_record]).
  constructor; [|constructor].
  by exists (Tester "K" 1), "2025-06-01T12:00:00", 0.25%Q, NotJson, 1%Z.
Defined.

(** ** Histograms account for every record once *)

Lemma histogram_total_incr `{Countable K} (k : K) (d : gmap K nat) :
  histogram_total (Py.incr k d) = S (histogram_total d).
Proof.
  unfold histogram_total, Py.incr.
  destruct (d !! k) as [n|] eqn:Hk; simpl.
  - rewrite <- (insert_delete_eq d).
    rewrite map_fold_insert_L; [|intros; lia|apply lookup_delete_eq].
    rewrite (map_fold_delete_L _ _ k n d); [lia|intros; lia|done].
  - rewrite map_fold_insert_L; [done|intros; lia|done].
Qed.

Lemma tally_total {A} `{Countable K} (f : A → K) (l : list A) (d : gmap K nat) :
  histogram_total (fold_left (λ d r, Py.incr (f r) d) l d)
  = (length l + histogram_total d)%nat.
Proof.
  revert d. induction l as [|x l IH]; intros d; [done|].
  simpl. rewrite IH, histogram_total_incr. lia.
Qed.

Lemma tally_count {A} `{Countable K} (f : A → K) (l : list A) (k : K) :
  fold_left (λ d r, Py.incr (f r) d) l ∅ !! k
  = match length (filter (λ r, f r = k) l) with
    | O => None
    | S c => Some (S c)
    end.
Proof. rewrite tally_lookup, lookup_empty. by destruct (length _). Qed.

Lemma filter_length_zero {A} (P : A → Prop) `{∀ x, Decision (P x)} (l : list A) :
  length (filter P l) = 0%nat ↔ ∀ x, x ∈ l → ¬ P x.
Proof.
  rewrite length_zero_iff_nil. split.
  - intros Hnil x Hin HP.
    assert (x ∈ filter P l) as Hx by by apply list_elem_of_filter.
    rewrite Hnil in Hx. by apply not_elem_of_nil in Hx.
  - intros Hall. induction l as [|x l IH]; [done|].
    rewrite filter_cons, decide_False by (apply Hall; left).
    apply IH. intros y Hy. apply Hall. by right.
Qed.

(** X7. The error histogram: the entry of a key is the number of failed
    records with that error ([Unknown error] for a record without the
    key), a key without such a record has no entry, and the entries add up
    to the number of failed records. *)
Theorem error_histogram (self : tester) (now : string) (rs : list outcome) :
  (∀ k, default 0%nat (error_analysis (build_analysis self now rs) !! k)
        = length (filter (λ r, error_type r = k)
                    (filter (λ r, success r = false) rs))) ∧
  (∀ k, error_analysis (build_analysis self now rs) !! k = None
        ↔ ∀ r, r ∈ rs → success r = false → error_type r ≠ k) ∧
  histogram_total (error_analysis (build_analysis self now rs))
  = failed_requests (build_analysis self now rs).
Proof.
  simpl. unfold error_counts. split_and!.
  - intros k. rewrite tally_count. by destruct (length _).
  - intros k. rewrite tally_count.
    destruct (length _) as [|c] eqn:Hlen.
    + split; [|done]. intros _ r Hin Hs.
      apply (proj1 (filter_length_zero _ _) Hlen).
      by apply list_elem_of_filter.
    + split; [done|]. intros Hall.
      assert (length (filter (λ r, error_type r = k)
                (filter (λ r, success r = false) rs)) = 0%nat) as Hz; [|lia].
      apply filter_length_zero.
      intros r [Hs Hin]%list_elem_of_filter. by apply Hall.
  - rewrite tally_total. unfold histogram_total. rewrite map_fold_empty. lia.
Qed.

(** X8. The status histogram: the entry of a label is the number of records
    with that label ([UNKNOWN] for a record without the key), and the
    entries add up to the number of records. *)
Theorem status_histogram (self : tester) (now : string) (rs : list outcome) :
  (∀ label,
     default 0%nat (api_status_distribution (build_analysis self now rs) !! label)
     = length (filter (λ r, status_label r = label) rs)) ∧
  (∀ label,
     api_status_distribution (build_analysis self now rs) !! label = None
     ↔ ∀ r, r ∈ rs → status_label r ≠ label) ∧
  histogram_total (api_status_distribution (build_analysis self now rs))
  = total_requests (build_analysis self now rs).
Proof.
  simpl. unfold api_status_counts. split_and!.
  - intros k. rewrite tally_count. by destruct (length _).
  - intros k. rewrite tally_count.
    destruct (length _) as [|c] eqn:Hlen.
    + split; [|done]. intros _ r Hin.
      by apply (proj1 (filter_length_zero _ _) Hlen).
    + split; [done|]. intros Hall.
      assert (length (filter (λ r, status_label r = k) rs) = 0%nat) as Hz; [|lia].
      by apply filter_length_zero.
  - rewrite tally_total. unfold histogram_total. rewrite map_fold_empty. lia.
Qed.

(** ** Rates and flags *)

Lemma round_half_even_comp q q' :
  (q == q')%Q → Py.round_half_even q = Py.round_half_even q'.
Proof.
  intros H. unfold Py.round_half_even.
  rewrite (Qfloor_comp _ _ H).
  assert ((q - inject_Z (Qfloor q') ?= 1 # 2)%Q
          = (q' - inject_Z (Qfloor q') ?= 1 # 2)%Q) as ->; [|done].
  by rewrite H.
Qed.

Lemma round_comp x y n : (x == y)%Q → Py.round x n = Py.round y n.
Proof.
  intros H. unfold Py.round. f_equal. apply round_half_even_comp. by rewrite H.
Qed.

Lemma len_eq {A B} (l : list A) (k : list B) :
  length l = length k → Py.len l = Py.len k.
Proof. unfold Py.len. by intros ->. Qed.

(** X9. The counts of a report add up, and the two ends of the rate: when
    every record succeeded the reported rate is 100 and
    [full_functionality] is set; when none did, the rate, the three
    latency statistics and the cost are 0 and [full_functionality] is not
    set. *)
Theorem request_counts (self : tester) (now : string) (w : world) :
  results w ≠ [] →
  ∃ a, (analyze_results self now w).1 = Some a ∧
    total_requests a = length (results w) ∧
    (successful_requests a + failed_requests a)%nat = total_requests a ∧
    cost_successful_requests a = successful_requests a ∧
    (failed_requests a = 0%nat →
       (success_rate_percent a == 100)%Q ∧ full_functionality a = true) ∧
    (successful_requests a = 0%nat →
       (success_rate_percent a == 0)%Q ∧ full_functionality a = false ∧
       (avg_response_time_ms a == 0)%Q ∧ (min_response_time_ms a == 0)%Q ∧
       (max_response_time_ms a == 0)%Q ∧ (estimated_cost_usd a == 0)%Q).
Proof.
  intros Hne. rewrite (analyze_results_nonempty _ _ _ Hne).
  eexists. split; [done|]. simpl.
  pose proof (filter_success_length (results w)) as Hsum.
  pose proof (len_pos _ Hne) as Hpos.
  split_and!; try done.
  - intros Hfailed. rewrite Hfailed, Nat.add_0_r in Hsum.
    unfold success_rate. rewrite (len_eq _ _ Hsum).
    assert (Py.len (results w) / Py.len (results w) * 100 == inject_Z 100)%Q
      as Hrate by (change (inject_Z 100) with 100%Q; field; lra).
    rewrite (round_comp _ _ 2 Hrate), Hrate.
    split; [apply round_id, decimals_Z|done].
  - intros Hnone. apply length_zero_iff_nil in Hnone.
    unfold success_rate. rewrite Hnone. by split_and!.
Qed.

Lemma request_counts_witness :
  ∃ a, (analyze_results (Tester "K" 10) "now" (World synthetic_results [] [])).1
       = Some a ∧
       total_requests a = 10%nat ∧
       (successful_requests a + failed_requests a)%nat = total_requests a.
Proof.
  destruct (request_counts (Tester "K" 10) "now" (World synthetic_results [] []))
    as (a & Ha & Htotal & Hsum & _); [done|].
  by exists a.
Defined.

(** X10. [full_functionality] against the reported rate: the flag implies a
    reported rate of at least 90, and a reported rate above 90 implies the
    flag. *)
Theorem full_functionality_reported (self : tester) (now : string)
    (rs : list outcome) :
  (full_functionality (build_analysis self now rs) = true →
   (90 <= success_rate_percent (build_analysis self now rs))%Q) ∧
  ((90 < success_rate_percent (build_analysis self now rs))%Q →
   full_functionality (build_analysis self now rs) = true).
Proof.
  simpl. split.
  - rewrite negb_true_iff, <- not_true_iff_false, Qle_bool_iff.
    intros H. apply Qnot_le_lt in H.
    apply (round_ge (inject_Z 90)); [apply decimals_Z|]. by apply Qlt_le_weak.
  - intros H. rewrite negb_true_iff, <- not_true_iff_false, Qle_bool_iff.
    intros Hle. apply (round_le (inject_Z 90) _ 2) in Hle; [|apply decimals_Z].
    change (inject_Z 90) with 90%Q in Hle. lra.
Qed.

(** X11. The reported minimum and maximum are latencies of successful records
    and bound the latency of every successful record. *)
Theorem latency_extremes (self : tester) (now : string) (rs : list outcome)
    (r : outcome) :
  r ∈ rs → success r = true →
  (min_response_time_ms (build_analysis self now rs) <= response_time_ms r
   <= max_response_time_ms (build_analysis self now rs))%Q ∧
  (∃ r1, r1 ∈ rs ∧ success r1 = true ∧
         response_time_ms r1 = min_response_time_ms (build_analysis self now rs)) ∧
  (∃ r2, r2 ∈ rs ∧ success r2 = true ∧
         response_time_ms r2 = max_response_time_ms (build_analysis self now rs)).
Proof.
  intros Hin Hs. simpl.
  assert (response_time_ms r
            ∈ response_time_ms <$> filter (λ r, success r = true) rs) as Hr.
  { apply list_elem_of_fmap. exists r. split; [done|]. by apply list_elem_of_filter. }
  assert (∀ x, x ∈ response_time_ms <$> filter (λ r, success r = true) rs →
               ∃ r', r' ∈ rs ∧ success r' = true ∧ response_time_ms r' = x) as Hback.
  { intros x (r' & -> & [? ?]%list_elem_of_filter)%list_elem_of_fmap. by exists r'. }
  destruct (response_time_ms <$> filter _ rs) as [|x l]; [by apply elem_of_nil in Hr|].
  simpl. destruct (min_spec x l) as [Hmin Hle]. destruct (max_spec x l) as [Hmax Hge].
  split_and!; auto.
Qed.

Lemma latency_extremes_witness :
  (min_response_time_ms (build_analysis (Tester "K" 10) "now" synthetic_results)
   <= 110
   <= max_response_time_ms (build_analysis (Tester "K" 10) "now" synthetic_results))%Q.
Proof.
  apply (latency_extremes (Tester "K" 10) "now" synthetic_results (succeeded 4 110)).
  - unfold synthetic_results. do 3 right. left.
  - reflexivity.
Defined.

(** ** Order of records and status lines *)

Lemma worker_lines_app c1 c2 :
  worker_lines (c1 ++ c2) = worker_lines c1 ++ worker_lines c2.
Proof. apply omap_app. Qed.

Lemma returned_app ts1 ts2 : returned (ts1 ++ ts2) = returned ts1 ++ returned ts2.
Proof. apply omap_app. Qed.

Lemma coroutines_in_order self e (l : list Z) :
  ∃ rs,
    (λ i, single_api_call_async self (isoformat_now e (i + 1))
            (transport e (i + 1)) (i + 1)) <$> l = Ok <$> rs ∧
    worker_id <$> rs = (λ i, i + 1)%Z <$> l.
Proof.
  induction l as [|i l (rs & IH1 & IH2)]; [by exists []|].
  destruct (single_api_call_total self (isoformat_now e (i + 1))
              (transport e (i + 1)) (i + 1) init_world)
    as (p & r & _ & _ & Hr & Hid & _).
  exists (r :: rs). csimpl. by rewrite Hr, IH1, IH2, Hid.
Qed.

Lemma process_results_lines rs w :
  worker_lines (console (fold_left process_result (Ok <$> rs) w))
  = worker_lines (console w) ++ rs.
Proof.
  revert w. induction rs as [|r rs IH]; intros w; csimpl.
  - by rewrite app_nil_r.
  - rewrite IH. simpl. rewrite worker_lines_app. simpl. by rewrite <- app_assoc.
Qed.

Lemma analyze_results_lines self now w :
  worker_lines (console (analyze_results self now w).2) = worker_lines (console w).
Proof.
  unfold analyze_results.
  destruct (results w); simpl; rewrite worker_lines_app; simpl; apply app_nil_r.
Qed.

(** X12. The asyncio run stores the records in worker order, 1 to
    [num_workers], and prints their status lines in the same order. *)
Theorem asyncio_keeps_worker_order (self : tester) (e : env) (w0 : world) :
  ∃ new,
    results (run_parallel_async self e w0).2 = results w0 ++ new ∧
    Ok <$> new = gather self e ∧
    worker_id <$> new = (λ i, i + 1)%Z <$> Py.range (num_workers self) ∧
    worker_lines (console (run_parallel_async self e w0).2)
    = worker_lines (console w0) ++ new.
Proof.
  destruct (coroutines_in_order self e (Py.range (num_workers self)))
    as (rs & Hrs & Hids).
  fold (gather self e) in Hrs.
  exists rs. unfold run_parallel_async.
  set (w1 := print TimingLines _).
  pose proof (analyze_results_world self (analysis_time e) w1) as [Hr _].
  pose proof (analyze_results_lines self (analysis_time e) w1) as Hl.
  destruct (analyze_results self (analysis_time e) w1) as [a w2]. simpl in *.
  rewrite Hr, Hl. subst w1. simpl. rewrite Hrs.
  rewrite process_results_ok, worker_lines_app, process_results_lines. simpl.
  rewrite worker_lines_app. simpl. by rewrite !app_nil_r.
Qed.

Lemma pool_step_lines self e p p' :
  pool_step self e p p' →
  worker_lines (console (pool_world p')) ++ returned (pending p')
    ++ results (pool_world p)
  ≡ₚ worker_lines (console (pool_world p)) ++ returned (pending p)
    ++ results (pool_world p').
Proof.
  destruct 1 as [pre t post w].
  destruct t as [i|[r|exn]].
  - destruct (advance_queued self e i w) as (r & -> & _); simpl.
    rewrite !returned_app. simpl.
    apply Permutation_app_head. rewrite <- !app_assoc.
    apply Permutation_app_head. simpl.
    rewrite (Permutation_app_comm (results w) [r]). simpl.
    by rewrite Permutation_middle.
  - simpl. rewrite worker_lines_app, !returned_app. simpl.
    rewrite <- !app_assoc. apply Permutation_app_head. simpl.
    by rewrite Permutation_middle.
  - simpl. by rewrite !returned_app.
Qed.

Lemma pool_rtc_lines self e p p' :
  rtc (pool_step self e) p p' →
  worker_lines (console (pool_world p')) ++ returned (pending p')
    ++ results (pool_world p)
  ≡ₚ worker_lines (console (pool_world p)) ++ returned (pending p)
    ++ results (pool_world p').
Proof.
  induction 1 as [|x y z Hstep _ IH]; [done|].
  apply pool_step_lines in Hstep.
  apply (Permutation_app_inv_l
           (worker_lines (console (pool_world y)) ++ returned (pending y)
              ++ results (pool_world y))).
  rewrite <- !app_assoc.
  transitivity
    ((worker_lines (console (pool_world z)) ++ returned (pending z)
        ++ results (pool_world y))
     ++ (worker_lines (console (pool_world y)) ++ returned (pending y)
        ++ results (pool_world x))).
  { rewrite <- !app_assoc. solve_Permutation. }
  rewrite IH, Hstep. rewrite <- !app_assoc. solve_Permutation.
Qed.

Lemma submitted_returned self : returned (submitted self) = [].
Proof.
  unfold submitted, returned.
  induction (Py.range (num_workers self)) as [|i l IH]; [done|]. by csimpl.
Qed.

(** X13. In the thread-pool run a status line is printed for a record only
    after the record is in the collection, and once the pool has settled
    every new record has exactly one status line; this holds for every
    interleaving, and for [run_parallel_sync] under every schedule. *)
Theorem thread_pool_status_lines (self : tester) (e : env) (w0 : world) :
  (∀ p, rtc (pool_step self e) (Pool (submitted self) w0) p →
     worker_lines (console (pool_world p)) ++ results w0
     ⊆+ worker_lines (console w0) ++ results (pool_world p) ∧
     (pending p = [] →
        worker_lines (console (pool_world p)) ++ results w0
        ≡ₚ worker_lines (console w0) ++ results (pool_world p))) ∧
  (∀ sched,
     worker_lines (console (run_parallel_sync self e sched w0).2) ++ results w0
     ≡ₚ worker_lines (console w0) ++ results (run_parallel_sync self e sched w0).2).
Proof.
  assert (∀ w p, rtc (pool_step self e) (Pool (submitted self) w) p →
            worker_lines (console (pool_world p)) ++ returned (pending p)
              ++ results w
            ≡ₚ worker_lines (console w) ++ results (pool_world p)) as Hinv.
  { intros w p Hrun. apply pool_rtc_lines in Hrun. simpl in Hrun.
    by rewrite submitted_returned in Hrun. }
  split.
  - intros p Hrun. specialize (Hinv _ _ Hrun). split.
    + rewrite <- Hinv. by apply submseteq_skips_l, submseteq_inserts_l.
    + intros Hdone. rewrite Hdone in Hinv. done.
  - intros sched. unfold run_parallel_sync.
    destruct (Z.leb_spec (num_workers self) 0) as [Hle|Hgt].
    { simpl. rewrite worker_lines_app. simpl. by rewrite app_nil_r. }
    set (w1 := print (StartLines (num_workers self) false) w0).
    set (p := pool_run self e sched _ _).
    pose proof (Hinv w1 p (pool_run_rtc _ _ _ _ _)) as Hp.
    assert (pending p = []) as Hdone.
    { apply pool_run_settles. simpl. by rewrite submitted_work. }
    rewrite Hdone in Hp. simpl in Hp.
    set (w2 := print TimingLines (pool_world p)).
    pose proof (analyze_results_world self (analysis_time e) w2) as [Hr _].
    pose proof (analyze_results_lines self (analysis_time e) w2) as Hl.
    destruct (analyze_results self (analysis_time e) w2) as [a w3]. simpl in *.
    rewrite Hr, Hl, worker_lines_app. simpl. rewrite app_nil_r.
    rewrite worker_lines_app in Hp. simpl in Hp. by rewrite app_nil_r in Hp.
Qed.

(** ** The driver *)

Lemma range_nonpositive n : (n ≤ 0)%Z → Py.range n = [].
Proof. intros H. unfold Py.range. by replace (Z.to_nat n) with 0%nat by lia. Qed.

(** X14. Without workers nothing is dispatched and no file is written: the
    thread mode fails in the executor and exits with status 1, the asyncio
    mode prints the no-results message and exits with status 0. *)
Theorem main_without_workers (key : string) (n : Z) (e : env)
    (sched : nat → nat) :
  (n ≤ 0)%Z →
  main key (Args n false) e sched
  = (World [] [Banner n false; StartLines n false;
               UnexpectedError "max_workers must be greater than 0"] [], 1%Z) ∧
  main key (Args n true) e sched
  = (World [] [Banner n true; StartLines n true; TimingLines;
               Say no_results_message] [], 0%Z).
Proof.
  intros Hn. unfold main, run_parallel_sync, run_parallel_async, gather. simpl.
  rewrite range_nonpositive by done.
  by destruct (Z.leb_spec n 0) as [_|?]; [|lia].
Qed.

Lemma main_without_workers_witness :
  (main "K" (Args (-3) false) sample_env round_robin).2 = 1%Z ∧
  (main "K" (Args (-3) true) sample_env round_robin).2 = 0%Z.
Proof.
  destruct (main_without_workers "K" (-3) sample_env round_robin) as [-> ->];
    [lia|done].
Defined.

Lemma run_parallel_sync_complete self e sched w0 :
  (1 ≤ num_workers self)%Z →
  ∃ rs c,
    run_parallel_sync self e sched w0
    = (Ok (Some (build_analysis self (analysis_time e) rs)),
       World rs (c ++ [TimingLines; Rendering (build_analysis self (analysis_time e) rs)])
             (files w0)) ∧
    length rs = (length (results w0) + Z.to_nat (num_workers self))%nat.
Proof.
  intros HN. unfold run_parallel_sync.
  destruct (Z.leb_spec (num_workers self) 0) as [?|_]; [lia|].
  set (w1 := print (StartLines (num_workers self) false) w0).
  set (p := pool_run self e sched _ _).
  assert (rtc (pool_step self e) (Pool (submitted self) w1) p) as Hrun
    by apply pool_run_rtc.
  assert (pending p = []) as Hdone.
  { apply pool_run_settles. simpl. by rewrite submitted_work. }
  pose proof (pool_rtc_records _ _ _ _ Hrun) as Hrec.
  pose proof (pool_rtc_files _ _ _ _ Hrun) as Hfiles.
  rewrite Hdone in Hrec. simpl in Hrec, Hfiles.
  rewrite submitted_owed, app_nil_r in Hrec.
  apply Permutation_length in Hrec.
  rewrite length_app, !length_fmap, gather_length in Hrec.
  destruct (pool_world p) as [rs c fs] eqn:Hw. simpl in *.
  exists rs, c. unfold analyze_results. simpl.
  destruct rs as [|r rs]; [simpl in Hrec; lia|].
  split; [|done]. unfold print_analysis, print. simpl.
  by rewrite Hfiles, <- app_assoc.
Qed.

Lemma run_parallel_async_complete self e w0 :
  (1 ≤ num_workers self)%Z →
  ∃ rs c,
    run_parallel_async self e w0
    = (Ok (Some (build_analysis self (analysis_time e) rs)),
       World rs (c ++ [TimingLines; Rendering (build_analysis self (analysis_time e) rs)])
             (files w0)) ∧
    length rs = (length (results w0) + Z.to_nat (num_workers self))%nat.
Proof.
  intros HN. unfold run_parallel_async.
  destruct (gather_all_ok self e) as [new Hnew].
  set (w1 := print (StartLines (num_workers self) true) w0).
  pose proof (process_results_ok new w1) as Hres.
  pose proof (process_results_files (gather self e) w1) as Hfiles.
  rewrite <- Hnew in Hres.
  assert (length new = Z.to_nat (num_workers self)) as Hlen.
  { rewrite <- (length_fmap Ok new), <- Hnew. apply gather_length. }
  destruct (fold_left process_result (gather self e) w1) as [rs c fs] eqn:Hw.
  simpl in *. exists rs, c. unfold analyze_results. simpl.
  assert (length rs = (length (results w0) + Z.to_nat (num_workers self))%nat)
    as Hrs by (by rewrite Hres, length_app, Hlen).
  destruct rs as [|r rs']; [simpl in Hrs; lia|].
  split; [|done]. unfold print_analysis, print. simpl.
  by rewrite Hfiles, <- app_assoc.
Qed.

(** X15. A complete run with at least one worker, in either mode, under every
    schedule and whatever the transport does, ends with status 0 and
    exactly one report file: its name holds the worker count and the run
    stamp, and it holds the report and the [num_workers] records of the
    collection; the report is rendered and the file announced last. *)
Theorem main_writes_one_report (key : string) (a : args) (e : env)
    (sched : nat → nat) :
  (1 ≤ arg_workers a)%Z →
  ∃ rs c,
    let an := build_analysis (Tester key (arg_workers a)) (analysis_time e) rs in
    let name :=
      ("parallel_api_test_report_" ++ pretty (arg_workers a) ++ "workers_"
         ++ report_stamp e ++ ".json")%string in
    main key a e sched
    = (World rs (c ++ [TimingLines; Rendering an; SavedNotice name])
             [ReportFile name an rs], 0%Z) ∧
    length rs = Z.to_nat (arg_workers a) ∧
    total_requests an = Z.to_nat (arg_workers a) ∧
    workers an = arg_workers a.
Proof.
  intros HN. unfold main.
  set (w0 := print _ init_world). set (t := Tester key _).
  assert (∃ rs c,
            (if arg_async_mode a then run_parallel_async t e w0
             else run_parallel_sync t e sched w0)
            = (Ok (Some (build_analysis t (analysis_time e) rs)),
               World rs (c ++ [TimingLines;
                               Rendering (build_analysis t (analysis_time e) rs)]) []) ∧
            length rs = Z.to_nat (arg_workers a)) as (rs & c & -> & Hlen).
  { destruct (arg_async_mode a).
    - destruct (run_parallel_async_complete t e w0 HN) as (rs & c & Hrun & Hlen).
      by exists rs, c.
    - destruct (run_parallel_sync_complete t e sched w0 HN) as (rs & c & Hrun & Hlen).
      by exists rs, c. }
  exists rs, c. simpl. split_and!; try done.
  unfold save_detailed_report, write_file, print. simpl.
  by rewrite <- app_assoc.
Qed.

Lemma main_writes_one_report_witness :
  ∃ rs c an,
    main "K" (Args 3 false) sample_env round_robin
    = (World rs (c ++ [TimingLines; Rendering an;
                       SavedNotice
                         "parallel_api_test_report_3workers_20250601_120005.json"])
             [ReportFile "parallel_api_test_report_3workers_20250601_120005.json"
                an rs], 0%Z) ∧
    length rs = 3%nat.
Proof.
  destruct (main_writes_one_report "K" (Args 3 false) sample_env round_robin)
    as (rs & c & Hmain & Hlen & _); [simpl; lia|].
  by exists rs, c, (build_analysis (Tester "K" 3) (analysis_time sample_env) rs).
Defined.

(** ** Status labels of dispatched records *)

Lemma request_outcome_ok_label p now i elapsed code b r :
  request_outcome p now i elapsed code b = Ok r →
  api_status r = Some "OK" → success r = true.
Proof.
  unfold request_outcome. intros H.
  destruct (code =? 200)%Z.
  - destruct b as [|status n em|e]; [| |done].
    + by simplify_eq.
    + destruct (String.eqb (default "UNKNOWN" status) "OK") eqn:Hok.
      * by simplify_eq.
      * apply String.eqb_neq in Hok.
        repeat case_match; simplify_eq; simpl; intros [= ?]; done.
  - repeat case_match; simplify_eq; done.
Qed.

(** X16. In a collection of records built by the dispatcher the entry OK of the
    status histogram is the number of successful requests. *)
Theorem ok_label_counts_successes (self : tester) (now' : string)
    (rs : list outcome) :
  Forall outcome_record rs →
  default 0%nat (api_status_distribution (build_analysis self now' rs) !! "OK")
  = successful_requests (build_analysis self now' rs).
Proof.
  intros Hall. simpl. unfold api_status_counts.
  rewrite tally_count.
  assert (filter (λ r, status_label r = "OK") rs
          = filter (λ r, success r = true) rs) as ->; [|by destruct (length _)].
  induction Hall as [|r rs' (self0 & now & rp & i & Hr) _ IH]; [done|].
  rewrite !filter_cons, IH.
  assert (status_label r = "OK" ↔ success r = true) as Hiff.
  { unfold single_api_call_async in Hr.
    destruct (create_request_params_ok self0 i) as (q & _ & Hp). rewrite Hp in Hr.
    destruct rp as [exn|elapsed code b].
    - simpl in Hr. injection Hr as <-. by split.
    - destruct (request_outcome _ now i elapsed code b) as [r'|exn] eqn:E.
      + simpl in Hr. injection Hr as ->.
        pose proof (request_outcome_shape _ _ _ _ _ _ _ E) as (Hs & _ & _ & [st Hst] & _).
        pose proof (request_outcome_ok_label _ _ _ _ _ _ _ E) as Hok.
        unfold status_label. rewrite Hst in *. simpl. split.
        * intros ->. by apply Hok.
        * intros [_ [= ->]]%Hs. done.
      + simpl in Hr. injection Hr as <-. by split. }
  destruct (decide (status_label r = "OK")) as [H1|H1],
           (decide (success r = true)) as [H2|H2]; try done.
  - by apply Hiff in H1.
  - by apply Hiff in H2.
Qed.

Lemma ok_label_counts_successes_witness :
  default 0%nat
    (api_status_distribution
       (build_analysis (Tester "K" 1) "now" [too_many_record]) !! "OK")
  = successful_requests (build_analysis (Tester "K" 1) "now" [too_many_record]).
Proof.
  apply (ok_label_counts_successes (Tester "K" 1) "now" [too_many_record]).
  constructor; [|constructor].
  by exists (Tester "K" 1), "2025-06-01T12:00:00",
            (Response 0.25 429 NotJson), 1%Z.
Defined.
